(** * Verification of the connection manager of the pubsub broker (src/net.c)

    The development embeds [peer_cb] and [read_packet] of net.c as Rocq
    functions over an explicit world state (the global client list, the
    client counter and a trace of the system calls and handler calls that
    were made), and states the properties of the receive path, the frame
    decoder and the outbound queue against that embedding. *)

From Stdlib Require Import ZArith List Bool Lia.
Import ListNotations.
Open Scope Z_scope.

(** ** Constants *)

(** Size of a client's input buffer.  net.c only uses the name; the value is
    the one its comment in [read_packet] gives ("the buffer is pretty small
    (4096 bytes)"). *)
Definition BUF_LEN : Z := 4096.

(** libev event bits (ev.h). *)
Definition EV_READ : Z := 1.
Definition EV_WRITE : Z := 2.

(** errno values (Linux). *)
Definition EAGAIN : Z := 11.
Definition EWOULDBLOCK : Z := 11.
Definition EINTR : Z := 4.

(** Modelled from the spec: the message types are declared in mqtt.h, which
    is not part of the sources.  [read_packet] compares them with
    [inbuf[0] & 0xF0], so they sit in the high nibble; [T_CONNECT] is the
    type byte of the establishment frame of the specification (0x10), and
    [T_PINGREQ] the keep-alive type (0xC0), whose branch in [read_packet]
    does the same as the default branch. *)
Definition T_CONNECT : Z := 16.
Definition T_PINGREQ : Z := 192.

(** A C [int]: 32 bits, two's complement, wrapping. *)
Definition wrap_int (z : Z) : Z := (z + 2147483648) mod 4294967296 - 2147483648.

(** ** Data *)

(** Modelled from the spec: the enumeration of connection states is declared
    in data.h, which is not part of the sources; net.c names only
    [S_CONNECTING].  The other two members follow the states of the
    handshake state machine (Established, Closing). *)
Inductive ClientState : Type :=
| S_CONNECTING
| S_CONNECTED
| S_CLOSING.

Definition state_eqb (a b : ClientState) : bool :=
  match a, b with
  | S_CONNECTING, S_CONNECTING => true
  | S_CONNECTED, S_CONNECTED => true
  | S_CLOSING, S_CLOSING => true
  | _, _ => false
  end.

(** A pending outbound message: the bytes, their number, and how many of
    them were handed to the socket so far. *)
Record Envelope : Type := mkEnvelope {
  msg : list Z;
  bytes_total : Z;
  bytes_sent : Z
}.

(** struct Client, with the fields net.c touches.  [inbuf] holds raw octets
    (0..255); [watcher_fd] is [client->watcher->fd]. *)
Record Client : Type := mkClient {
  fd : Z;
  watcher_fd : Z;
  state : ClientState;
  inbuf : list Z;
  inbuf_bytes : Z;
  outgoing_msgs : list Envelope
}.

Definition set_inbuf_bytes (n : Z) (c : Client) : Client :=
  mkClient (fd c) (watcher_fd c) (state c) (inbuf c) n (outgoing_msgs c).

Definition set_inbuf (b : list Z) (c : Client) : Client :=
  mkClient (fd c) (watcher_fd c) (state c) b (inbuf_bytes c) (outgoing_msgs c).

Definition set_state (s : ClientState) (c : Client) : Client :=
  mkClient (fd c) (watcher_fd c) s (inbuf c) (inbuf_bytes c) (outgoing_msgs c).

Definition set_outgoing_msgs (q : list Envelope) (c : Client) : Client :=
  mkClient (fd c) (watcher_fd c) (state c) (inbuf c) (inbuf_bytes c) q.

Definition set_bytes_sent (n : Z) (e : Envelope) : Envelope :=
  mkEnvelope (msg e) (bytes_total e) n.

(** What the callback does to the outside: system calls and handler calls,
    oldest first. *)
Inductive event : Type :=
| SysRead (sd count : Z)
| SysClose (sd : Z)
| SysWrite (sd : Z) (sent : list Z)
| SysWriteFailed (sd : Z)
| WatcherStop (sd : Z)
| FreeEnvelope (e : Envelope)
| CallHandleConnect (sd : Z) (msg_length : Z).

(** The process state net.c works on: the global list [clients] (head is the
    connection accepted last), the counter [num_clients], and the trace. *)
Record World : Type := mkWorld {
  clients : list Client;
  num_clients : Z;
  trace : list event
}.

(** Results of the kernel for one call.  A read delivers bytes (none at end
    of stream) or fails with an errno; a write accepts a number of bytes or
    fails with an errno. *)
Inductive read_result : Type :=
| ReadData (data : list Z)
| ReadError (errno : Z).

Inductive write_result : Type :=
| WriteAccepts (n : nat)
| WriteError (errno : Z).

(** The kernel as seen during one callback, per socket descriptor, with the
    value [errno] holds when no call has failed. *)
Record Env : Type := mkEnv {
  sys_read : Z -> read_result;
  sys_write : Z -> write_result;
  errno_before : Z
}.

(** A C function either returns, or stops the process on a failed [assert],
    or (for the loop model below) runs out of fuel. *)
Inductive outcome (A : Type) : Type :=
| Ret (a : A)
| AssertFailed
| OutOfFuel.
Arguments Ret {A} a.
Arguments AssertFailed {A}.
Arguments OutOfFuel {A}.

Definition bind {A B : Type} (m : outcome A) (k : A -> outcome B) : outcome B :=
  match m with
  | Ret a => k a
  | AssertFailed => AssertFailed
  | OutOfFuel => OutOfFuel
  end.

Notation "x <- m ;; k" := (bind m (fun x => k))
  (at level 61, m at next level, right associativity).

Definition assert (b : bool) : outcome unit :=
  if b then Ret tt else AssertFailed.

(** [memcpy] of [data] into the array [buf] at offset [off]: what [read]
    does to the input buffer. *)
Definition store_bytes (buf : list Z) (off : Z) (data : list Z) : list Z :=
  firstn (Z.to_nat off) buf ++ data
    ++ skipn (Z.to_nat off + length data) buf.

Section Net.

(** The element type of [inbuf] is declared in data.h, which is not part of
    the sources: plain [char] is signed on some platforms and unsigned on
    others, so the model takes it as a parameter. *)
Variable char_signed : bool.

(** [handle_connect] lives in mqtt.c, which is not part of the sources: it
    gets the client and the decoded length, may change the client, and
    returns an [int]. *)
Variable handle_connect : Client -> Z -> Client * Z.

Definition char_to_int (b : Z) : Z :=
  if char_signed && (128 <=? b) then b - 256 else b.

(** [client->inbuf[i]], promoted to [int]. *)
Definition inbuf_at (client : Client) (i : Z) : Z :=
  char_to_int (nth (Z.to_nat i) (inbuf client) 0).

(** The do-while loop of [read_packet] (net.c:187-191), entered with
    [msg_index] and [multiplier]; it returns the final [msg_length] and
    [msg_index].  One unit of fuel per iteration. *)
Fixpoint length_loop (fuel : nat) (client : Client) (msg_index multiplier : Z)
  : outcome (Z * Z) :=
  match fuel with
  | O => OutOfFuel
  | S fuel' =>
      let thisbyte := inbuf_at client msg_index in
      let msg_index := msg_index + 1 in
      let msg_length := wrap_int (Z.land thisbyte 127 * multiplier) in
      let multiplier := wrap_int (multiplier * 128) in
      if (msg_index <? inbuf_bytes client) && negb (Z.land thisbyte 127 =? 0)
      then length_loop fuel' client msg_index multiplier
      else Ret (msg_length, msg_index)
  end.

(** Lines 175-195 of [read_packet]: the value of [msg_length] and of
    [msg_complete] after the two branches. *)
Definition frame_length (client : Client) : outcome (Z * bool) :=
  let msg_length := inbuf_at client 1 in
  if (inbuf_at client 1 <? 128) && (inbuf_bytes client - 2 =? inbuf_at client 1)
  then Ret (msg_length, true)
  else if inbuf_at client 1 >=? 128 then
    r <- length_loop (Z.to_nat (inbuf_bytes client)) client 1 1 ;;
    let msg_length := fst r in
    Ret (msg_length, inbuf_bytes client - 2 =? msg_length)
  else Ret (msg_length, false).

(** [read_packet]: returns the client as the handler left it, the [int]
    result, and the handler calls that were made. *)
Definition read_packet (client : Client) : outcome (Client * Z * list event) :=
  _ <- assert (inbuf_bytes client >? 2) ;;
  lc <- frame_length client ;;
  let '(msg_length, msg_complete) := lc in
  if negb msg_complete then Ret (client, 0, [])
  else
    let msg_type := Z.land (inbuf_at client 0) 240 in
    if state_eqb (state client) S_CONNECTING && negb (msg_type =? T_CONNECT)
    then Ret (client, 0, [])
    else if msg_type =? T_CONNECT then
      let '(client', ret) := handle_connect client msg_length in
      Ret (client', ret, [CallHandleConnect (fd client) msg_length])
    else if msg_type =? T_PINGREQ then Ret (client, 0, [])
    else Ret (client, 0, []).

(** LIST_FOREACH with a [break] on the first element satisfying [p]: the
    elements before it, the element, and the elements after it.  [None] is
    the loop running to the end, which leaves the cursor NULL. *)
Fixpoint list_foreach_break (p : Client -> bool) (l : list Client)
  : option (list Client * Client * list Client) :=
  match l with
  | [] => None
  | client :: rest =>
      if p client then Some ([], client, rest)
      else match list_foreach_break p rest with
           | Some (before, found, after) => Some (client :: before, found, after)
           | None => None
           end
  end.

(** [read(sd, buf, count)]: the return value, the bytes stored, and [errno]
    after the call.  The kernel never stores more than [count] bytes. *)
Definition do_read (env : Env) (sd count : Z) : Z * list Z * Z :=
  match sys_read env sd with
  | ReadData data =>
      let got := firstn (Z.to_nat count) data in
      (Z.of_nat (length got), got, errno_before env)
  | ReadError errno => (-1, [], errno)
  end.

(** [write(sd, buf, count)] on the bytes [offered]: the return value and the
    event it leaves in the trace. *)
Definition do_write (env : Env) (sd : Z) (offered : list Z) : Z * event :=
  match sys_write env sd with
  | WriteAccepts n =>
      let sent := firstn n offered in
      (Z.of_nat (length sent), SysWrite sd sent)
  | WriteError _ => (-1, SysWriteFailed sd)
  end.

(** The EV_READ branch of [peer_cb] (net.c:95-132) for the client the lookup
    stopped at.  [ret_uninit] is the indeterminate value of the local [ret],
    which line 131 reads without an assignment when [read_packet] was not
    called. *)
Definition peer_cb_read (env : Env) (ret_uninit : Z) (w : World)
    (before : list Client) (client : Client) (after : list Client)
  : outcome World :=
  let count := BUF_LEN - inbuf_bytes client in
  let '(bytes_read, got, errno) := do_read env (fd client) count in
  let tr := trace w ++ [SysRead (fd client) count] in
  if bytes_read =? 0 then
    let num_clients' := num_clients w - 1 in
    if (bytes_read =? -1) && (errno =? EAGAIN)
    then Ret (mkWorld (clients w) num_clients' tr)
    else
      Ret (mkWorld (before ++ after) num_clients'
             (tr ++ [SysClose (fd client); WatcherStop (fd client)]))
  else if bytes_read =? -1 then
    Ret (mkWorld (clients w) (num_clients w) tr)
  else
    let client :=
      set_inbuf_bytes (inbuf_bytes client + bytes_read)
        (set_inbuf (store_bytes (inbuf client) (inbuf_bytes client) got) client) in
    r <- (if inbuf_bytes client >? 2 then read_packet client
          else Ret (client, ret_uninit, [])) ;;
    let '(client, ret, calls) := r in
    let client := if negb (ret =? 0) then set_inbuf_bytes 0 client else client in
    Ret (mkWorld (before ++ client :: after) (num_clients w) (tr ++ calls)).

(** The EV_WRITE branch of [peer_cb] (net.c:133-168): the LIST_FOREACH over
    the outgoing messages leaves by [break] in its first iteration, so only
    the head of the list is looked at. *)
Definition peer_cb_write (env : Env) (w : World)
    (before : list Client) (client : Client) (after : list Client)
  : outcome World :=
  match outgoing_msgs client with
  | [] => Ret w
  | envelope :: rest =>
      _ <- assert (negb (bytes_total envelope =? bytes_sent envelope)) ;;
      let count := bytes_total envelope - bytes_sent envelope in
      let offered :=
        firstn (Z.to_nat count)
          (skipn (Z.to_nat (bytes_sent envelope)) (msg envelope)) in
      let '(ret, ev) := do_write env (fd client) offered in
      let tr := trace w ++ [ev] in
      if (ret <? 0)
         && ((ret =? EAGAIN) || (ret =? EWOULDBLOCK) || (ret =? EINTR))
      then Ret (mkWorld (clients w) (num_clients w) tr)
      else
        let envelope := set_bytes_sent (bytes_sent envelope + ret) envelope in
        if bytes_sent envelope =? bytes_total envelope then
          Ret (mkWorld (before ++ set_outgoing_msgs rest client :: after)
                 (num_clients w) (tr ++ [FreeEnvelope envelope]))
        else
          Ret (mkWorld
                 (before ++ set_outgoing_msgs (envelope :: rest) client :: after)
                 (num_clients w) tr)
  end.

(** [peer_cb] (net.c:80-170).  [peer_w] is the descriptor of the watcher the
    event loop passes in; the function body never reads it. *)
Definition peer_cb (env : Env) (ret_uninit : Z) (peer_w : Z) (revents : Z)
    (w : World) : outcome World :=
  match list_foreach_break (fun client => fd client =? fd client) (clients w) with
  | None => AssertFailed
  | Some (before, client, after) =>
      _ <- assert (watcher_fd client =? fd client) ;;
      if negb (Z.land revents EV_READ =? 0) then
        peer_cb_read env ret_uninit w before client after
      else if negb (Z.land revents EV_WRITE =? 0) then
        peer_cb_write env w before client after
      else Ret w
  end.

(** A run of the receive path: one EV_READ callback per chunk, the kernel
    delivering exactly that chunk on every descriptor. *)
Definition read_env (data : list Z) : Env :=
  mkEnv (fun _ => ReadData data) (fun _ => WriteError EAGAIN) 0.

Fixpoint feed (ret_uninit peer_w : Z) (chunks : list (list Z)) (w : World)
  : outcome World :=
  match chunks with
  | [] => Ret w
  | data :: rest =>
      w' <- peer_cb (read_env data) ret_uninit peer_w EV_READ w ;;
      feed ret_uninit peer_w rest w'
  end.

(** A run of the send path: one EV_WRITE callback per entry of [accepts],
    the kernel accepting at most that many bytes in the callback's write. *)
Definition write_env (n : nat) : Env :=
  mkEnv (fun _ => ReadError EAGAIN) (fun _ => WriteAccepts n) 0.

Fixpoint drain (peer_w : Z) (accepts : list nat) (w : World) : outcome World :=
  match accepts with
  | [] => Ret w
  | n :: rest =>
      w' <- peer_cb (write_env n) 0 peer_w EV_WRITE w ;;
      drain peer_w rest w'
  end.

End Net.

(** ** Observations on traces and queues *)

Definition is_handler_call (e : event) : bool :=
  match e with CallHandleConnect _ _ => true | _ => false end.

(** The frames that reached a protocol handler, oldest first. *)
Definition handler_calls (tr : list event) : list event :=
  filter is_handler_call tr.

Definition is_write_attempt (e : event) : bool :=
  match e with SysWrite _ _ | SysWriteFailed _ => true | _ => false end.

Definition write_attempts (tr : list event) : list event :=
  filter is_write_attempt tr.

(** The bytes the socket took, in the order the writes were made. *)
Fixpoint sent_bytes (tr : list event) : list Z :=
  match tr with
  | [] => []
  | SysWrite _ sent :: rest => sent ++ sent_bytes rest
  | _ :: rest => sent_bytes rest
  end.

(** The bytes of an envelope that still have to go out, and those of a whole
    queue, head first. *)
Definition unsent (e : Envelope) : list Z :=
  skipn (Z.to_nat (bytes_sent e)) (msg e).

Definition pending (q : list Envelope) : list Z :=
  concat (map unsent q).

(** A queued envelope as whoever builds it leaves it, and as the assertion
    at net.c:139 expects it: [bytes_total] is the size of [msg], and some
    byte is still unsent. *)
Definition envelope_ok (e : Envelope) : Prop :=
  bytes_total e = Z.of_nat (length (msg e))
  /\ 0 <= bytes_sent e < bytes_total e.

Definition queue_ok (q : list Envelope) : Prop := Forall envelope_ok q.

(** Modelled from the spec: the function that queues a message is not in
    net.c.  Section 4.4 has it append a new Envelope with [bytes_sent = 0]
    to the tail of the queue. *)
Definition enqueue (payload : list Z) (q : list Envelope) : list Envelope :=
  q ++ [mkEnvelope payload (Z.of_nat (length payload)) 0].

(** The remaining-length encoding as section 6 of the specification words
    it: base 128, least significant group first, bit 0x80 set on every byte
    but the last.  Not part of net.c, which only decodes. *)
Fixpoint spec_encode_remaining_length (fuel : nat) (x : Z) : list Z :=
  match fuel with
  | O => []
  | S fuel' =>
      if 0 <? x / 128
      then Z.lor (x mod 128) 128 :: spec_encode_remaining_length fuel' (x / 128)
      else [x mod 128]
  end.

(** The client after [read] stored [data] behind the buffered bytes and line
    126 counted them. *)
Definition received (client : Client) (data : list Z) : Client :=
  set_inbuf_bytes (inbuf_bytes client + Z.of_nat (length data))
    (set_inbuf (store_bytes (inbuf client) (inbuf_bytes client) data) client).

(** Line 131-132: a nonzero [ret] empties the buffer. *)
Definition reset_if (ret : Z) (client : Client) : Client :=
  if negb (ret =? 0) then set_inbuf_bytes 0 client else client.

(** A handler that accepts every connection. *)
Definition accept_connect (client : Client) (msg_length : Z) : Client * Z :=
  (set_state S_CONNECTED client, 1).

(** A client as [accept_cb] leaves it (net.c:64-72), on descriptor [sd]. *)
Definition fresh_client (sd : Z) : Client :=
  mkClient sd sd S_CONNECTING (repeat 0 (Z.to_nat BUF_LEN)) 0 [].

(** ** Accepting connections *)

(** libev's error bit, [(int) 0x80000000]: as an [int] it is the sign bit. *)
Definition EV_ERROR : Z := -2147483648.

(** [accept_cb] (net.c:32-78).  [sys_accept] is what [accept] returns on a
    listening descriptor (a new descriptor, or -1), [inbuf_alloc] the
    contents of the buffer [malloc] hands out.  The result is the world and
    the watcher that was started, if any, as the descriptor and the event
    mask it was initialised with.  [getnameinfo] only feeds the log. *)
Definition accept_cb (sys_accept : Z -> Z) (inbuf_alloc : list Z)
    (watcher : Z) (revents : Z) (w : World) : World * option (Z * Z) :=
  if negb (Z.land EV_ERROR revents =? 0) then (w, None)
  else
    let peer_sd := sys_accept watcher in
    if (peer_sd =? EAGAIN) || (peer_sd =? EINTR) || (peer_sd =? EWOULDBLOCK)
    then (w, None)
    else if peer_sd <? 0 then (w, None)
    else
      let client := mkClient peer_sd peer_sd S_CONNECTING inbuf_alloc 0 [] in
      (mkWorld (client :: clients w) (num_clients w + 1) (trace w),
       Some (peer_sd, Z.lor EV_READ EV_WRITE)).

(** [num_clients] counts the entries of the client list. *)
Definition counted (w : World) : Prop :=
  num_clients w = Z.of_nat (length (clients w)).

(** The value [multiplier] holds when the loop of [read_packet] is entered
    with [msg_index]: the powers of 128, which leave the range of [int]
    with the sixth byte. *)
Definition multiplier_at (msg_index multiplier : Z) : Prop :=
  (msg_index = 1 /\ multiplier = 1)
  \/ (msg_index = 2 /\ multiplier = 128)
  \/ (msg_index = 3 /\ multiplier = 16384)
  \/ (msg_index = 4 /\ multiplier = 2097152)
  \/ (msg_index = 5 /\ multiplier = 268435456)
  \/ (6 <= msg_index /\ multiplier = 0).

(** Every client's count of buffered bytes lies within its buffer. *)
Definition buffers_bounded (w : World) : Prop :=
  Forall (fun c => 0 <= inbuf_bytes c <= BUF_LEN) (clients w).

(** The descriptor an event of the trace is about, if it is about one. *)
Definition event_sd (e : event) : option Z :=
  match e with
  | SysRead sd _ | SysClose sd | SysWrite sd _ | SysWriteFailed sd
  | WatcherStop sd | CallHandleConnect sd _ => Some sd
  | FreeEnvelope _ => None
  end.

(** ** Basic facts about the embedding *)

Lemma list_foreach_break_head (c : Client) (rest : list Client) :
  list_foreach_break (fun client => fd client =? fd client) (c :: rest)
  = Some ([], c, rest).
Proof. simpl. now rewrite Z.eqb_refl. Qed.

(** The lookup of [peer_cb] stops at the head of the client list, whatever
    the event was for. *)
Lemma peer_cb_head cs h env ret_uninit peer_w revents c others num tr :
  watcher_fd c = fd c ->
  peer_cb cs h env ret_uninit peer_w revents (mkWorld (c :: others) num tr)
  = if negb (Z.land revents EV_READ =? 0)
    then peer_cb_read cs h env ret_uninit (mkWorld (c :: others) num tr) [] c others
    else if negb (Z.land revents EV_WRITE =? 0)
    then peer_cb_write env (mkWorld (c :: others) num tr) [] c others
    else Ret (mkWorld (c :: others) num tr).
Proof.
  intros Hw. unfold peer_cb. cbn [clients].
  rewrite list_foreach_break_head, Hw, Z.eqb_refl. reflexivity.
Qed.

(** The loop of [read_packet] ends within [inbuf_bytes - msg_index] rounds
    (one round when the index is already past the end). *)
Lemma length_loop_returns cs client fuel msg_index multiplier :
  (Z.to_nat (inbuf_bytes client - msg_index) < fuel)%nat ->
  exists r, length_loop cs fuel client msg_index multiplier = Ret r.
Proof.
  revert msg_index multiplier.
  induction fuel as [|fuel IH]; intros msg_index multiplier Hfuel; [lia|].
  cbn [length_loop].
  destruct ((msg_index + 1 <? inbuf_bytes client)
            && negb (Z.land (inbuf_at cs client msg_index) 127 =? 0)) eqn:E.
  - apply andb_prop in E. destruct E as [E _]. apply Z.ltb_lt in E.
    apply IH. lia.
  - eauto.
Qed.

Lemma frame_length_returns cs client :
  2 < inbuf_bytes client ->
  exists r, frame_length cs client = Ret r.
Proof.
  intros Hn. unfold frame_length.
  destruct ((inbuf_at cs client 1 <? 128)
            && (inbuf_bytes client - 2 =? inbuf_at cs client 1)); [eauto|].
  destruct (inbuf_at cs client 1 >=? 128); [|eauto].
  destruct (length_loop_returns cs client (Z.to_nat (inbuf_bytes client)) 1 1)
    as [r Hr]; [lia|].
  rewrite Hr. cbn. eauto.
Qed.

(** [read_packet] returns whenever its assertion holds: the model's fuel is
    never exhausted. *)
Lemma read_packet_returns cs h client :
  2 < inbuf_bytes client ->
  exists r, read_packet cs h client = Ret r.
Proof.
  intros Hn. unfold read_packet.
  replace (inbuf_bytes client >? 2) with true by (symmetry; apply Z.gtb_lt; lia).
  cbn [assert bind].
  destruct (frame_length_returns cs client Hn) as [[len complete] Hr].
  rewrite Hr. cbn [bind].
  destruct complete; cbn [negb]; [|eauto].
  destruct (state_eqb (state client) S_CONNECTING
            && negb (Z.land (inbuf_at cs client 0) 240 =? T_CONNECT)); [eauto|].
  destruct (Z.land (inbuf_at cs client 0) 240 =? T_CONNECT).
  - destruct (h client len). eauto.
  - destruct (Z.land (inbuf_at cs client 0) 240 =? T_PINGREQ); eauto.
Qed.

(** A frame whose length byte is below 128: complete exactly when the buffer
    holds the two header bytes and that many more. *)
Lemma frame_length_single_byte cs client :
  0 <= nth 1 (inbuf client) 0 < 128 ->
  frame_length cs client
  = Ret (nth 1 (inbuf client) 0,
         inbuf_bytes client - 2 =? nth 1 (inbuf client) 0).
Proof.
  intros Hb. unfold frame_length, inbuf_at, char_to_int.
  change (Z.to_nat 1) with 1%nat.
  replace (128 <=? nth 1 (inbuf client) 0) with false
    by (symmetry; apply Z.leb_gt; lia).
  rewrite andb_false_r.
  replace (nth 1 (inbuf client) 0 <? 128) with true
    by (symmetry; apply Z.ltb_lt; lia).
  cbn [andb].
  destruct (inbuf_bytes client - 2 =? nth 1 (inbuf client) 0); [reflexivity|].
  replace (nth 1 (inbuf client) 0 >=? 128) with false; [reflexivity|].
  symmetry. rewrite Z.geb_leb. apply Z.leb_gt. lia.
Qed.

(** ** The frame decoder on lengths of more than one byte *)

(** C1.  The frame [0x20 0x80 0x01] followed by 128 payload bytes (131
    buffered bytes, whatever the payload is) is not decoded as a complete
    frame of length 128: [read_packet] computes a length other than 128,
    leaves [msg_complete] false and returns 0 without dispatching. *)
Theorem read_packet_length_128_incomplete :
  forall cs h sd st q payload,
    let client := mkClient sd sd st ([32; 128; 1] ++ payload) 131 q in
    (exists len, frame_length cs client = Ret (len, false) /\ len <> 128)
    /\ read_packet cs h client = Ret (client, 0, []).
Proof.
  intros cs h sd st q payload client. subst client. split.
  - destruct cs.
    + exists (-128). split; [reflexivity | lia].
    + exists 0. split; [reflexivity | lia].
  - destruct cs; reflexivity.
Qed.

(** C2.  The loop of [read_packet] does not decode the base-128 encoding:
    on the encoding of 128 it stops after the first byte with length 0, on
    the encoding of 200 (with nothing buffered after it) it returns 128,
    since each byte overwrites the length,
    and on five length bytes it reads the fifth and returns normally. *)
Theorem length_loop_not_varint :
  forall cs sd st q payload,
    length_loop cs 131
      (mkClient sd sd st (32 :: spec_encode_remaining_length 4 128 ++ payload) 131 q)
      1 1 = Ret (0, 2)
    /\ length_loop cs 3
      (mkClient sd sd st (32 :: spec_encode_remaining_length 4 200) 3 q)
      1 1 = Ret (128, 3)
    /\ length_loop cs 6
      (mkClient sd sd st [32; 255; 255; 255; 255; 1] 6 q)
      1 1 = Ret (268435456, 6).
Proof.
  intros cs sd st q payload. destruct cs; repeat split; reflexivity.
Qed.

(** ** Faults of the callback at concrete inputs *)

(** C5.  A client in [S_CONNECTING] whose first complete frame has a type
    other than CONNECT ([0xC0 0x01 0x00]) is not torn down: no handler is
    called, but the client stays in the list in state [S_CONNECTING], its
    socket is not closed, and the frame stays in the buffer. *)
Theorem non_connect_first_frame_keeps_client :
  forall cs h,
    exists client,
      peer_cb cs h (read_env [192; 1; 0]) 0 5 EV_READ
        (mkWorld [fresh_client 5] 1 [])
      = Ret (mkWorld [client] 1 [SysRead 5 4096])
      /\ fd client = 5
      /\ state client = S_CONNECTING
      /\ inbuf_bytes client = 3
      /\ firstn 3 (inbuf client) = [192; 1; 0].
Proof.
  intros cs h.
  eexists. split; [destruct cs; vm_compute; reflexivity|].
  repeat split; reflexivity.
Qed.

(** C6.  A write that fails (return value -1, any errno, would-block
    included) is added to [bytes_sent]: the counter of a fresh envelope
    becomes -1. *)
Theorem failed_write_lowers_bytes_sent :
  forall cs h errno,
    peer_cb cs h
      (mkEnv (fun _ => ReadError EAGAIN) (fun _ => WriteError errno) 0)
      0 5 EV_WRITE
      (mkWorld [mkClient 5 5 S_CONNECTED [] 0 [mkEnvelope [1; 2; 3; 4; 5] 5 0]] 1 [])
    = Ret (mkWorld
             [mkClient 5 5 S_CONNECTED [] 0 [mkEnvelope [1; 2; 3; 4; 5] 5 (-1)]]
             1 [SysWriteFailed 5]).
Proof. intros cs h errno. reflexivity. Qed.

(** C8.  The callback does not depend on the descriptor of the event, and
    serves the head of the client list: with clients 5 and 4 registered, an
    event for descriptor 4 makes it read descriptor 5 into the buffer of
    client 5, and client 4 is left as it was. *)
Theorem peer_cb_ignores_event_descriptor :
  (forall cs h env ret_uninit peer_w peer_w' revents w,
      peer_cb cs h env ret_uninit peer_w revents w
      = peer_cb cs h env ret_uninit peer_w' revents w)
  /\ (forall cs h,
      peer_cb cs h
        (mkEnv (fun sd => if sd =? 4 then ReadData [16; 1; 0] else ReadData [9; 9])
               (fun _ => WriteError EAGAIN) 0)
        0 4 EV_READ
        (mkWorld [mkClient 5 5 S_CONNECTING [] 0 [];
                  mkClient 4 4 S_CONNECTING [] 0 []] 2 [])
      = Ret (mkWorld [mkClient 5 5 S_CONNECTING [9; 9] 2 [];
                      mkClient 4 4 S_CONNECTING [] 0 []] 2 [SysRead 5 4096])).
Proof.
  split.
  - reflexivity.
  - intros cs h. destruct cs; reflexivity.
Qed.

(** C9.  A read that fails with any errno, would-block or not, only returns:
    with ECONNRESET the client is still registered, its socket is not
    closed and its watcher is not stopped. *)
Theorem read_error_never_tears_down :
  forall cs h errno,
    peer_cb cs h
      (mkEnv (fun _ => ReadError errno) (fun _ => WriteError EAGAIN) 0)
      0 5 EV_READ
      (mkWorld [mkClient 5 5 S_CONNECTED [] 0 []] 1 [])
    = Ret (mkWorld [mkClient 5 5 S_CONNECTED [] 0 []] 1 [SysRead 5 4096]).
Proof. intros cs h errno. reflexivity. Qed.

(** ** Read readiness against write readiness *)

Lemma write_attempts_app (a b : list event) :
  write_attempts (a ++ b) = write_attempts a ++ write_attempts b.
Proof. apply filter_app. Qed.

Lemma handler_calls_app (a b : list event) :
  handler_calls (a ++ b) = handler_calls a ++ handler_calls b.
Proof. apply filter_app. Qed.

(** [read_packet] calls at most one handler, [handle_connect]. *)
Lemma read_packet_calls cs h client client' ret calls :
  read_packet cs h client = Ret (client', ret, calls) ->
  calls = [] \/ exists len, calls = [CallHandleConnect (fd client) len].
Proof.
  unfold read_packet.
  destruct (inbuf_bytes client >? 2); cbn [assert bind]; [|discriminate].
  destruct (frame_length cs client) as [[len complete]| |]; cbn [bind];
    [|discriminate|discriminate].
  destruct complete; cbn [negb].
  2:{ intros H; inversion H; auto. }
  destruct (state_eqb (state client) S_CONNECTING
            && negb (Z.land (inbuf_at cs client 0) 240 =? T_CONNECT)).
  { intros H; inversion H; auto. }
  destruct (Z.land (inbuf_at cs client 0) 240 =? T_CONNECT).
  - destruct (h client len) as [c2 r2]. intros H; inversion H; eauto.
  - destruct (Z.land (inbuf_at cs client 0) 240 =? T_PINGREQ);
      intros H; inversion H; auto.
Qed.

(** The read branch issues no write. *)
Lemma peer_cb_read_no_write cs h env ret_uninit w before client after w' :
  peer_cb_read cs h env ret_uninit w before client after = Ret w' ->
  write_attempts (trace w') = write_attempts (trace w).
Proof.
  unfold peer_cb_read.
  destruct (do_read env (fd client) (BUF_LEN - inbuf_bytes client))
    as [[bytes_read got] errno].
  destruct (bytes_read =? 0).
  { destruct ((bytes_read =? -1) && (errno =? EAGAIN));
      intros H; inversion H; subst; cbn [trace];
      rewrite ?write_attempts_app; cbn; now rewrite ?app_nil_r. }
  destruct (bytes_read =? -1).
  { intros H; inversion H; subst; cbn [trace].
    rewrite write_attempts_app. cbn. now rewrite app_nil_r. }
  match goal with
  | |- bind ?m _ = _ -> _ => destruct m as [[[c2 ret] calls]| |] eqn:Hm
  end; cbn [bind]; [|discriminate|discriminate].
  intros H; inversion H; subst; cbn [trace].
  rewrite !write_attempts_app. cbn.
  assert (Hcalls : write_attempts calls = []).
  { match type of Hm with
    | (if ?b then _ else _) = _ => destruct b
    end.
    - apply read_packet_calls in Hm. destruct Hm as [->|[len ->]]; reflexivity.
    - inversion Hm; reflexivity. }
  now rewrite Hcalls, !app_nil_r.
Qed.

(** C10.  When read readiness is signalled, the callback does what it does
    for read readiness alone, whatever the write-readiness bit is, and it
    attempts no write; so an invocation that attempts a write is one where
    read readiness was not signalled. *)
Theorem read_readiness_shadows_write :
  forall cs h env ret_uninit peer_w revents w,
    (Z.land revents EV_READ <> 0 ->
       peer_cb cs h env ret_uninit peer_w revents w
       = peer_cb cs h env ret_uninit peer_w EV_READ w
       /\ forall w', peer_cb cs h env ret_uninit peer_w revents w = Ret w' ->
                     write_attempts (trace w') = write_attempts (trace w))
    /\ (forall w', peer_cb cs h env ret_uninit peer_w revents w = Ret w' ->
          write_attempts (trace w') <> write_attempts (trace w) ->
          Z.land revents EV_READ = 0).
Proof.
  intros cs h env ret_uninit peer_w revents w.
  assert (Hread : Z.land revents EV_READ <> 0 ->
       peer_cb cs h env ret_uninit peer_w revents w
       = peer_cb cs h env ret_uninit peer_w EV_READ w
       /\ forall w', peer_cb cs h env ret_uninit peer_w revents w = Ret w' ->
                     write_attempts (trace w') = write_attempts (trace w)).
  { intros Hr. unfold peer_cb.
    destruct (list_foreach_break _ (clients w)) as [[[before client] after]|].
    2:{ split; [reflexivity | discriminate]. }
    destruct (watcher_fd client =? fd client); cbn [assert bind].
    2:{ split; [reflexivity | discriminate]. }
    apply Z.eqb_neq in Hr. rewrite Hr. cbn [negb].
    change (Z.land EV_READ EV_READ =? 0) with false. cbn [negb].
    split; [reflexivity|].
    intros w'. apply peer_cb_read_no_write. }
  split; [exact Hread|].
  intros w' Hw' Hdiff.
  destruct (Z.eq_dec (Z.land revents EV_READ) 0) as [E|E]; [exact E|].
  exfalso. apply Hdiff. now apply (proj2 (Hread E)).
Qed.

(** ** The receive path *)

Lemma do_read_data env sd count data :
  sys_read env sd = ReadData data ->
  Z.of_nat (length data) <= count ->
  do_read env sd count = (Z.of_nat (length data), data, errno_before env).
Proof.
  intros Hr Hlen. unfold do_read. rewrite Hr.
  rewrite firstn_all2 by lia. reflexivity.
Qed.

(** A read that delivers bytes: they are stored and counted, the decoder
    runs once if more than two bytes are buffered, and a nonzero result
    empties the buffer. *)
Lemma peer_cb_read_data cs h env ret_uninit peer_w c others num tr data :
  watcher_fd c = fd c ->
  sys_read env (fd c) = ReadData data ->
  data <> [] ->
  Z.of_nat (length data) <= BUF_LEN - inbuf_bytes c ->
  peer_cb cs h env ret_uninit peer_w EV_READ (mkWorld (c :: others) num tr)
  = r <- (if inbuf_bytes (received c data) >? 2
          then read_packet cs h (received c data)
          else Ret (received c data, ret_uninit, [])) ;;
    let '(client, ret, calls) := r in
    Ret (mkWorld (reset_if ret client :: others) num
           ((tr ++ [SysRead (fd c) (BUF_LEN - inbuf_bytes c)]) ++ calls)).
Proof.
  intros Hw Hr Hne Hlen.
  rewrite peer_cb_head by exact Hw.
  change (negb (Z.land EV_READ EV_READ =? 0)) with true. cbv iota.
  unfold peer_cb_read.
  rewrite (do_read_data env (fd c) _ data Hr Hlen).
  assert (Hpos : 0 < Z.of_nat (length data)).
  { destruct data; [congruence | cbn [length]; lia]. }
  replace (Z.of_nat (length data) =? 0) with false
    by (symmetry; apply Z.eqb_neq; lia).
  replace (Z.of_nat (length data) =? -1) with false
    by (symmetry; apply Z.eqb_neq; lia).
  reflexivity.
Qed.

(** C4 (as amended).  The decoder runs only when more than two bytes are
    buffered, and a frame whose length byte is 0 is never complete: after a
    read that leaves at most two bytes buffered, or a buffer whose second
    byte is 0, the callback returns with no handler called.  With more than
    two bytes the client is left as the read made it; with at most two,
    [read_packet] is not called (its assertion would fail) and the buffer
    is emptied or kept as the unassigned [ret] happens to be. *)
Theorem header_only_frame_never_complete :
  forall cs h env ret_uninit peer_w c others num tr data,
    watcher_fd c = fd c ->
    sys_read env (fd c) = ReadData data ->
    data <> [] ->
    Z.of_nat (length data) <= BUF_LEN - inbuf_bytes c ->
    inbuf_bytes (received c data) <= 2
      \/ nth 1 (inbuf (received c data)) 0 = 0 ->
    exists c2,
      peer_cb cs h env ret_uninit peer_w EV_READ (mkWorld (c :: others) num tr)
      = Ret (mkWorld (c2 :: others) num
               (tr ++ [SysRead (fd c) (BUF_LEN - inbuf_bytes c)]))
      /\ (2 < inbuf_bytes (received c data) -> c2 = received c data)
      /\ (inbuf_bytes (received c data) <= 2 ->
            c2 = reset_if ret_uninit (received c data)
            /\ read_packet cs h (received c data) = AssertFailed).
Proof.
  intros cs h env ret_uninit peer_w c others num tr data Hw Hr Hne Hlen Hcase.
  rewrite (peer_cb_read_data cs h env ret_uninit peer_w c others num tr data)
    by assumption.
  set (c1 := received c data) in *.
  destruct (Z_le_gt_dec (inbuf_bytes c1) 2) as [Hsmall|Hbig].
  - replace (inbuf_bytes c1 >? 2) with false
      by (symmetry; rewrite Z.gtb_ltb; apply Z.ltb_ge; lia).
    cbn [bind]. exists (reset_if ret_uninit c1).
    rewrite app_nil_r. split; [reflexivity|]. split; [lia|].
    intros _. split; [reflexivity|].
    unfold read_packet.
    replace (inbuf_bytes c1 >? 2) with false
      by (symmetry; rewrite Z.gtb_ltb; apply Z.ltb_ge; lia).
    reflexivity.
  - destruct Hcase as [Hsmall|Hzero]; [lia|].
    replace (inbuf_bytes c1 >? 2) with true by (symmetry; apply Z.gtb_lt; lia).
    assert (Hrp : read_packet cs h c1 = Ret (c1, 0, [])).
    { unfold read_packet.
      replace (inbuf_bytes c1 >? 2) with true by (symmetry; apply Z.gtb_lt; lia).
      cbn [assert bind].
      rewrite frame_length_single_byte by (rewrite Hzero; lia).
      rewrite Hzero. cbn [bind].
      replace (inbuf_bytes c1 - 2 =? 0) with false
        by (symmetry; apply Z.eqb_neq; lia).
      reflexivity. }
    rewrite Hrp. cbn [bind]. exists c1.
    rewrite app_nil_r. split; [reflexivity|]. split; [reflexivity | lia].
Qed.

(** ** One frame delivered in pieces *)

Lemma store_bytes_start (buf data : list Z) :
  store_bytes buf 0 data = data ++ skipn (length data) buf.
Proof. reflexivity. Qed.

Lemma store_bytes_extend (buf p d : list Z) :
  store_bytes (store_bytes buf 0 p) (Z.of_nat (length p)) d
  = store_bytes buf 0 (p ++ d).
Proof.
  rewrite !store_bytes_start. unfold store_bytes.
  rewrite Nat2Z.id, firstn_app, firstn_all, Nat.sub_diag, firstn_0, app_nil_r.
  rewrite skipn_app, skipn_all2 by lia. cbn [app].
  rewrite skipn_skipn, length_app, <- app_assoc.
  do 3 f_equal. lia.
Qed.

Lemma received_received (c : Client) (p d : list Z) :
  inbuf_bytes c = 0 ->
  received (received c p) d = received c (p ++ d).
Proof.
  intros H0. unfold received, set_inbuf_bytes, set_inbuf. cbn.
  rewrite H0. cbn [Z.add].
  rewrite store_bytes_extend, length_app, Nat2Z.inj_add. reflexivity.
Qed.

Lemma inbuf_bytes_received (c : Client) (p : list Z) :
  inbuf_bytes (received c p) = inbuf_bytes c + Z.of_nat (length p).
Proof. reflexivity. Qed.

Lemma received_nil (c : Client) :
  inbuf_bytes c = 0 -> received c [] = c.
Proof.
  intros H0. destruct c as [sd wfd st buf n q]. cbn in H0. subst n.
  reflexivity.
Qed.

Lemma received_second_byte (c : Client) (p : list Z) :
  inbuf_bytes c = 0 -> (2 <= length p)%nat ->
  nth 1 (inbuf (received c p)) 0 = nth 1 p 0.
Proof.
  intros H0 Hp. unfold received. cbn. rewrite H0, store_bytes_start.
  apply app_nth1. lia.
Qed.

(** With a length byte below 128 and a byte count that does not match it,
    [read_packet] returns 0 and leaves everything as it is. *)
Lemma read_packet_incomplete cs h client :
  2 < inbuf_bytes client ->
  0 <= nth 1 (inbuf client) 0 < 128 ->
  inbuf_bytes client - 2 <> nth 1 (inbuf client) 0 ->
  read_packet cs h client = Ret (client, 0, []).
Proof.
  intros Hn Hb Hne. unfold read_packet.
  replace (inbuf_bytes client >? 2) with true by (symmetry; apply Z.gtb_lt; lia).
  cbn [assert bind]. rewrite frame_length_single_byte by exact Hb.
  cbn [bind].
  replace (inbuf_bytes client - 2 =? nth 1 (inbuf client) 0) with false
    by (symmetry; apply Z.eqb_neq; lia).
  reflexivity.
Qed.

Section SingleFrame.

Variable cs : bool.
Variable h : Client -> Z -> Client * Z.
Variables ret_uninit peer_w : Z.
Variable c : Client.
Variable others : list Client.
Variable num : Z.
Variable frame : list Z.
Variable c' : Client.
Variable ret : Z.
Variable calls : list event.

Hypothesis watcher_ok : watcher_fd c = fd c.
Hypothesis buffer_empty : inbuf_bytes c = 0.
Hypothesis length_byte : 1 <= nth 1 frame 0 < 128.
Hypothesis frame_size : Z.of_nat (length frame) = 2 + nth 1 frame 0.
Hypothesis decoded : read_packet cs h (received c frame) = Ret (c', ret, calls).

(** Reading the rest of the frame, chunk by chunk, when [p] is buffered.
    While fewer than three bytes are buffered the decoder is not called and
    line 131 reads the unassigned [ret]; the run is determined when that
    value is 0 or when the first read already leaves three bytes.  It then
    ends in the state the decoder produces on the whole frame. *)
Lemma feed_rest_of_frame (rest : list (list Z)) :
  forall (p d : list Z) (tr : list event),
    d <> [] ->
    Forall (fun x => x <> []) rest ->
    ret_uninit = 0 \/ (3 <= length p + length d)%nat ->
    p ++ d ++ concat rest = frame ->
    exists w1,
      feed cs h ret_uninit peer_w (d :: rest)
        (mkWorld (received c p :: others) num tr) = Ret w1
      /\ clients w1 = reset_if ret c' :: others
      /\ num_clients w1 = num
      /\ handler_calls (trace w1) = handler_calls tr ++ handler_calls calls.
Proof.
  induction rest as [|d' rest IH]; intros p d tr Hd Hrest Hlen Hsplit.
  - cbn [concat] in Hsplit. rewrite app_nil_r in Hsplit.
    cbn [feed].
    rewrite (peer_cb_read_data cs h (read_env d) ret_uninit peer_w
               (received c p) others num tr d);
      [ | exact watcher_ok | reflexivity | exact Hd | ].
    2:{ rewrite inbuf_bytes_received, buffer_empty.
        assert (length p + length d = length frame)%nat
          by (rewrite <- Hsplit, length_app; reflexivity).
        unfold BUF_LEN. lia. }
    rewrite (received_received c p d buffer_empty), Hsplit.
    replace (inbuf_bytes (received c frame) >? 2) with true.
    2:{ symmetry. apply Z.gtb_lt.
        rewrite inbuf_bytes_received, buffer_empty. lia. }
    rewrite decoded. cbn [bind].
    eexists. split; [reflexivity|]. cbn [clients num_clients trace].
    repeat split.
    rewrite !handler_calls_app. cbn. now rewrite app_nil_r.
  - cbn [concat] in Hsplit. inversion Hrest as [|x l Hd' Hrest']; subst x l.
    assert (Hfull : (length p + length d + length d' + length (concat rest)
                     = length frame)%nat).
    { rewrite <- Hsplit, !length_app. lia. }
    assert (Hd'pos : (0 < length d')%nat)
      by (destruct d'; [congruence | cbn; lia]).
    cbn [feed].
    rewrite (peer_cb_read_data cs h (read_env d) ret_uninit peer_w
               (received c p) others num tr d);
      [ | exact watcher_ok | reflexivity | exact Hd | ].
    2:{ rewrite inbuf_bytes_received, buffer_empty. unfold BUF_LEN. lia. }
    rewrite (received_received c p d buffer_empty).
    assert (Hn : inbuf_bytes (received c (p ++ d))
                 = Z.of_nat (length p + length d)).
    { rewrite inbuf_bytes_received, buffer_empty, length_app. reflexivity. }
    assert (Hstep :
      (if inbuf_bytes (received c (p ++ d)) >? 2
       then read_packet cs h (received c (p ++ d))
       else Ret (received c (p ++ d), ret_uninit, []))
      = Ret (received c (p ++ d), 0, [])).
    { destruct (Z_le_gt_dec (inbuf_bytes (received c (p ++ d))) 2) as [Hs|Hb].
      - replace (inbuf_bytes (received c (p ++ d)) >? 2) with false
          by (symmetry; rewrite Z.gtb_ltb; apply Z.ltb_ge; lia).
        destruct Hlen as [->|Hlen]; [reflexivity | lia].
      - replace (inbuf_bytes (received c (p ++ d)) >? 2) with true
          by (symmetry; apply Z.gtb_lt; lia).
        assert (Hsec : nth 1 (inbuf (received c (p ++ d))) 0 = nth 1 frame 0).
        { rewrite received_second_byte
            by (rewrite ?length_app; lia || exact buffer_empty).
          rewrite <- Hsplit, app_assoc. symmetry. apply app_nth1.
          rewrite length_app. lia. }
        apply read_packet_incomplete; rewrite ?Hsec, ?Hn; lia. }
    rewrite Hstep. cbn [bind]. unfold reset_if at 1. cbn [Z.eqb negb].
    destruct (IH (p ++ d) d'
                ((tr ++ [SysRead (fd (received c p))
                           (BUF_LEN - inbuf_bytes (received c p))]) ++ []))
      as [w1 [Hrun [Hc [Hnum Hcalls]]]];
      [ exact Hd' | exact Hrest'
      | destruct Hlen as [Hz|Hlen]; [now left | right; rewrite length_app; lia]
      | now rewrite <- app_assoc | ].
    exists w1. split; [exact Hrun|]. split; [exact Hc|]. split; [exact Hnum|].
    rewrite Hcalls, !handler_calls_app. cbn. now rewrite !app_nil_r.
Qed.

End SingleFrame.

(** A complete CONNECT frame with a one-byte length goes to
    [handle_connect] with that length. *)
Lemma read_packet_connect cs h client :
  2 < inbuf_bytes client ->
  0 <= nth 1 (inbuf client) 0 < 128 ->
  inbuf_bytes client - 2 = nth 1 (inbuf client) 0 ->
  Z.land (inbuf_at cs client 0) 240 = T_CONNECT ->
  read_packet cs h client
  = Ret (fst (h client (nth 1 (inbuf client) 0)),
         snd (h client (nth 1 (inbuf client) 0)),
         [CallHandleConnect (fd client) (nth 1 (inbuf client) 0)]).
Proof.
  intros Hn Hb Heq Hty. unfold read_packet.
  replace (inbuf_bytes client >? 2) with true by (symmetry; apply Z.gtb_lt; lia).
  cbn [assert bind]. rewrite frame_length_single_byte by exact Hb.
  cbn [bind]. rewrite Heq, Z.eqb_refl, Hty, Z.eqb_refl.
  cbn [negb]. rewrite andb_false_r.
  destruct (h client (nth 1 (inbuf client) 0)). reflexivity.
Qed.

(** Split invariance for one frame: a frame with a one-byte length of at
    least 1, arriving on an empty buffer in any number of non-empty reads,
    ends in the same client list, client count and handler calls as the
    same frame arriving in one read, provided the first read brings at
    least three bytes or the unassigned [ret] of line 131 reads as 0; at
    most one handler call is made, and a CONNECT frame reaches
    [handle_connect] with its length. *)
Lemma single_frame_split :
  forall cs h ret_uninit peer_w c others num tr frame first rest,
    watcher_fd c = fd c ->
    inbuf_bytes c = 0 ->
    1 <= nth 1 frame 0 < 128 ->
    Z.of_nat (length frame) = 2 + nth 1 frame 0 ->
    first ++ concat rest = frame ->
    first <> [] ->
    Forall (fun d => d <> []) rest ->
    ret_uninit = 0 \/ (3 <= length first)%nat ->
    exists w1 w2,
      feed cs h ret_uninit peer_w (first :: rest) (mkWorld (c :: others) num tr)
      = Ret w1
      /\ feed cs h ret_uninit peer_w [frame] (mkWorld (c :: others) num tr)
         = Ret w2
      /\ clients w1 = clients w2
      /\ num_clients w1 = num_clients w2
      /\ handler_calls (trace w1) = handler_calls (trace w2)
      /\ (length (handler_calls (trace w2)) <= length (handler_calls tr) + 1)%nat
      /\ (Z.land (char_to_int cs (nth 0 frame 0)) 240 = T_CONNECT ->
          handler_calls (trace w2)
          = handler_calls tr ++ [CallHandleConnect (fd c) (nth 1 frame 0)]).
Proof.
  intros cs h ret_uninit peer_w c others num tr frame first rest
         Hw H0 Hb Hsize Hsplit Hfirst_ne Hrest Hfirst.
  assert (Hn : inbuf_bytes (received c frame) = Z.of_nat (length frame))
    by (rewrite inbuf_bytes_received, H0; reflexivity).
  assert (Hsecond : nth 1 (inbuf (received c frame)) 0 = nth 1 frame 0)
    by (apply received_second_byte; [exact H0 | lia]).
  destruct (read_packet_returns cs h (received c frame)) as [[[c' ret] calls] Hdec];
    [lia|].
  assert (Hframe_ne : frame <> [])
    by (destruct frame; [cbn in Hsize; lia | congruence]).
  pose proof (feed_rest_of_frame cs h ret_uninit peer_w c others num frame
                c' ret calls Hw H0 Hb Hsize Hdec rest [] first tr
                Hfirst_ne Hrest) as Hsplit_run.
  pose proof (feed_rest_of_frame cs h ret_uninit peer_w c others num frame
                c' ret calls Hw H0 Hb Hsize Hdec [] [] frame tr
                Hframe_ne (Forall_nil _)) as Hwhole_run.
  rewrite (received_nil c H0) in Hsplit_run, Hwhole_run.
  destruct Hsplit_run as [w1 [Hrun1 [Hc1 [Hn1 Hcalls1]]]];
    [destruct Hfirst; [now left | right; cbn [length]; lia] | exact Hsplit |].
  destruct Hwhole_run as [w2 [Hrun2 [Hc2 [Hn2 Hcalls2]]]];
    [right; cbn [length]; lia | cbn; now rewrite app_nil_r |].
  exists w1, w2.
  split; [exact Hrun1|]. split; [exact Hrun2|].
  split; [congruence|]. split; [congruence|]. split; [congruence|].
  split.
  - rewrite Hcalls2, length_app.
    destruct (read_packet_calls cs h _ _ _ _ Hdec) as [->|[len ->]]; cbn; lia.
  - intros Hty. rewrite Hcalls2. f_equal.
    rewrite read_packet_connect in Hdec.
    + injection Hdec as _ _ Hcalls. rewrite <- Hcalls.
      change (nth 1 (store_bytes (inbuf c) (inbuf_bytes c) frame) 0)
        with (nth 1 (inbuf (received c frame)) 0).
      rewrite Hsecond. reflexivity.
    + lia.
    + rewrite Hsecond. lia.
    + rewrite Hsecond. lia.
    + unfold inbuf_at. cbn [Z.to_nat].
      replace (nth 0 (inbuf (received c frame)) 0) with (nth 0 frame 0);
        [exact Hty|].
      unfold received. cbn [inbuf set_inbuf set_inbuf_bytes].
      rewrite H0, store_bytes_start. symmetry. apply app_nth1. lia.
Qed.

(** One read that delivers bytes: the decoder runs at most once, and only
    with more than two bytes buffered; afterwards the buffer is whole or,
    on a nonzero result, empty. *)
Lemma peer_cb_read_once cs h env ret_uninit peer_w c others num tr data :
  watcher_fd c = fd c ->
  sys_read env (fd c) = ReadData data ->
  data <> [] ->
  Z.of_nat (length data) <= BUF_LEN - inbuf_bytes c ->
  exists c1 ret calls,
    peer_cb cs h env ret_uninit peer_w EV_READ (mkWorld (c :: others) num tr)
    = Ret (mkWorld (reset_if ret c1 :: others) num
             ((tr ++ [SysRead (fd c) (BUF_LEN - inbuf_bytes c)]) ++ calls))
    /\ (length calls <= 1)%nat
    /\ (inbuf_bytes (received c data) <= 2 ->
          c1 = received c data /\ ret = ret_uninit /\ calls = [])
    /\ (2 < inbuf_bytes (received c data) ->
          read_packet cs h (received c data) = Ret (c1, ret, calls)).
Proof.
  intros Hw Hr Hne Hlen.
  rewrite (peer_cb_read_data cs h env ret_uninit peer_w c others num tr data)
    by assumption.
  destruct (Z_le_gt_dec (inbuf_bytes (received c data)) 2) as [Hs|Hb].
  - replace (inbuf_bytes (received c data) >? 2) with false
      by (symmetry; rewrite Z.gtb_ltb; apply Z.ltb_ge; lia).
    cbn [bind]. exists (received c data), ret_uninit, [].
    split; [reflexivity|]. split; [cbn; lia|]. split; [auto | lia].
  - replace (inbuf_bytes (received c data) >? 2) with true
      by (symmetry; apply Z.gtb_lt; lia).
    destruct (read_packet_returns cs h (received c data)) as [[[c1 ret] calls] Hrp];
      [lia|].
    rewrite Hrp. cbn [bind]. exists c1, ret, calls.
    split; [reflexivity|]. split.
    + destruct (read_packet_calls cs h _ _ _ _ Hrp) as [->|[len ->]]; cbn; lia.
    + split; [lia | auto].
Qed.

(** C3 (as amended).  After a read that delivers bytes the decoder runs at
    most once, and only with more than two bytes buffered; its nonzero
    result empties the whole buffer, otherwise every byte stays buffered.
    Split invariance holds for a stream that is one frame with a one-byte
    length of at least 1 arriving on an empty buffer: read in any number of
    non-empty pieces it ends in the same client list, client count and
    handler calls as read in one piece, provided the first read brings at
    least three bytes or the unassigned [ret] of line 131 reads as 0. *)
Theorem receive_path_decodes_once_per_read :
  (forall cs h env ret_uninit peer_w c others num tr data,
      watcher_fd c = fd c ->
      sys_read env (fd c) = ReadData data ->
      data <> [] ->
      Z.of_nat (length data) <= BUF_LEN - inbuf_bytes c ->
      exists c1 ret calls,
        peer_cb cs h env ret_uninit peer_w EV_READ (mkWorld (c :: others) num tr)
        = Ret (mkWorld (reset_if ret c1 :: others) num
                 ((tr ++ [SysRead (fd c) (BUF_LEN - inbuf_bytes c)]) ++ calls))
        /\ (length calls <= 1)%nat
        /\ (inbuf_bytes (received c data) <= 2 ->
              c1 = received c data /\ ret = ret_uninit /\ calls = [])
        /\ (2 < inbuf_bytes (received c data) ->
              read_packet cs h (received c data) = Ret (c1, ret, calls)))
  /\ (forall cs h ret_uninit peer_w c others num tr frame first rest,
      watcher_fd c = fd c ->
      inbuf_bytes c = 0 ->
      1 <= nth 1 frame 0 < 128 ->
      Z.of_nat (length frame) = 2 + nth 1 frame 0 ->
      first ++ concat rest = frame ->
      first <> [] ->
      Forall (fun d => d <> []) rest ->
      ret_uninit = 0 \/ (3 <= length first)%nat ->
      exists w1 w2,
        feed cs h ret_uninit peer_w (first :: rest) (mkWorld (c :: others) num tr)
        = Ret w1
        /\ feed cs h ret_uninit peer_w [frame] (mkWorld (c :: others) num tr)
           = Ret w2
        /\ clients w1 = clients w2
        /\ num_clients w1 = num_clients w2
        /\ handler_calls (trace w1) = handler_calls (trace w2)
        /\ (length (handler_calls (trace w2)) <= length (handler_calls tr) + 1)%nat
        /\ (Z.land (char_to_int cs (nth 0 frame 0)) 240 = T_CONNECT ->
            handler_calls (trace w2)
            = handler_calls tr ++ [CallHandleConnect (fd c) (nth 1 frame 0)])).
Proof.
  split.
  - intros. now apply peer_cb_read_once.
  - intros. now apply single_frame_split.
Qed.

(** ** The send path *)

Lemma set_outgoing_msgs_same (c : Client) :
  set_outgoing_msgs (outgoing_msgs c) c = c.
Proof. destruct c; reflexivity. Qed.

Lemma sent_bytes_app (a b : list event) :
  sent_bytes (a ++ b) = sent_bytes a ++ sent_bytes b.
Proof.
  induction a as [|ev a IH]; [reflexivity|].
  destruct ev; cbn [sent_bytes app]; rewrite ?IH, ?app_assoc; reflexivity.
Qed.

Lemma unsent_length (e : Envelope) :
  envelope_ok e ->
  length (unsent e) = Z.to_nat (bytes_total e - bytes_sent e).
Proof.
  intros [Htot Hsent]. unfold unsent. rewrite length_skipn. lia.
Qed.

(** One write-readiness callback on a sound queue with head [e]: one write
    is attempted, on the unsent bytes of [e]; what the socket takes leaves
    the front of the pending bytes, and [e] leaves the queue when nothing
    of it is left. *)
Lemma peer_cb_write_step cs h peer_w n c others num tr e q :
  watcher_fd c = fd c ->
  outgoing_msgs c = e :: q ->
  envelope_ok e ->
  exists q1 evs,
    peer_cb cs h (write_env n) 0 peer_w EV_WRITE (mkWorld (c :: others) num tr)
    = Ret (mkWorld (set_outgoing_msgs q1 c :: others) num (tr ++ evs))
    /\ (q1 = q \/ exists e1, q1 = e1 :: q /\ envelope_ok e1)
    /\ sent_bytes evs ++ pending q1 = pending (e :: q)
    /\ length (write_attempts evs) = 1%nat.
Proof.
  intros Hw Hq Hok.
  pose proof (unsent_length e Hok) as Hlen.
  destruct Hok as [Htot Hsent].
  rewrite peer_cb_head by exact Hw.
  change (negb (Z.land EV_WRITE EV_READ =? 0)) with false.
  change (negb (Z.land EV_WRITE EV_WRITE =? 0)) with true. cbv iota.
  unfold peer_cb_write. rewrite Hq.
  replace (bytes_total e =? bytes_sent e) with false
    by (symmetry; apply Z.eqb_neq; lia).
  cbn [negb assert bind].
  fold (unsent e). rewrite (firstn_all2 (unsent e)) by lia.
  unfold do_write, write_env. cbn [sys_write].
  set (now_sent := firstn n (unsent e)).
  assert (Hk : length now_sent = Nat.min n (length (unsent e)))
    by apply length_firstn.
  replace (Z.of_nat (length now_sent) <? 0) with false
    by (symmetry; apply Z.ltb_ge; lia).
  cbn [andb set_bytes_sent bytes_sent bytes_total clients num_clients trace].
  destruct (bytes_sent e + Z.of_nat (length now_sent) =? bytes_total e) eqn:E.
  - apply Z.eqb_eq in E.
    assert (Hall : now_sent = unsent e)
      by (apply firstn_all2; lia).
    exists q.
    exists [SysWrite (fd c) now_sent;
            FreeEnvelope
              (set_bytes_sent (bytes_sent e + Z.of_nat (length now_sent)) e)].
    split.
    { rewrite <- app_assoc. reflexivity. }
    split; [now left|]. split; [|reflexivity].
    cbn [sent_bytes app pending map concat]. rewrite app_nil_r, Hall.
    reflexivity.
  - apply Z.eqb_neq in E.
    assert (Hn : (n < length (unsent e))%nat) by lia.
    assert (Hkn : length now_sent = n) by lia.
    exists (mkEnvelope (msg e) (bytes_total e)
              (bytes_sent e + Z.of_nat (length now_sent)) :: q).
    exists [SysWrite (fd c) now_sent]. split; [reflexivity|]. split.
    { right. eexists. split; [reflexivity|].
      split; cbn [msg bytes_total bytes_sent]; lia. }
    split; [|reflexivity].
    cbn [sent_bytes app pending map concat]. rewrite app_nil_r, app_assoc.
    f_equal.
    unfold unsent at 1. cbn [msg bytes_sent].
    replace (Z.to_nat (bytes_sent e + Z.of_nat (length now_sent)))
      with (n + Z.to_nat (bytes_sent e))%nat by lia.
    rewrite <- skipn_skipn. apply firstn_skipn.
Qed.

(** C7 (as amended).  Every write-readiness callback makes at most one write
    attempt, on the head of the queue only, and returns; over any number of
    callbacks in which the socket accepts any numbers of bytes, the bytes
    it takes, in the order of the writes, followed by what is still pending
    in the queue, are the bytes that were pending at the start in queue
    order: nothing is sent out of order, twice, or skipped. *)
Theorem drain_sends_in_queue_order :
  forall cs h peer_w accepts c others num tr,
    watcher_fd c = fd c ->
    queue_ok (outgoing_msgs c) ->
    exists q' evs,
      drain cs h peer_w accepts (mkWorld (c :: others) num tr)
      = Ret (mkWorld (set_outgoing_msgs q' c :: others) num (tr ++ evs))
      /\ queue_ok q'
      /\ sent_bytes evs ++ pending q' = pending (outgoing_msgs c)
      /\ (length (write_attempts evs) <= length accepts)%nat.
Proof.
  intros cs h peer_w accepts.
  induction accepts as [|n accepts IH]; intros c others num tr Hw Hq.
  - exists (outgoing_msgs c), []. cbn [drain].
    rewrite set_outgoing_msgs_same, app_nil_r.
    repeat split; [exact Hq | cbn; lia].
  - cbn [drain].
    destruct (outgoing_msgs c) as [|e q] eqn:Eq.
    + rewrite peer_cb_head by exact Hw.
      change (negb (Z.land EV_WRITE EV_READ =? 0)) with false.
      change (negb (Z.land EV_WRITE EV_WRITE =? 0)) with true. cbv iota.
      unfold peer_cb_write. rewrite Eq. cbn [bind].
      destruct (IH c others num tr Hw) as [q' [evs [Hrun [Hq' [Hbytes Hcount]]]]];
        [rewrite Eq; exact Hq|].
      exists q', evs. rewrite Eq in Hbytes.
      repeat split; [exact Hrun | exact Hq' | exact Hbytes | cbn [length]; lia].
    + inversion Hq as [|x l He Hrest]; subst x l.
      destruct (peer_cb_write_step cs h peer_w n c others num tr e q Hw Eq He)
        as [q1 [evs1 [Hstep [Hq1 [Hbytes1 Hcount1]]]]].
      rewrite Hstep. cbn [bind].
      assert (Hq1ok : queue_ok q1).
      { destruct Hq1 as [->|[e1 [-> He1]]]; [exact Hrest|].
        constructor; assumption. }
      destruct (IH (set_outgoing_msgs q1 c) others num (tr ++ evs1) Hw Hq1ok)
        as [q' [evs [Hrun [Hq' [Hbytes Hcount]]]]].
      exists q', (evs1 ++ evs).
      split; [rewrite Hrun, app_assoc; reflexivity|].
      split; [exact Hq'|]. split.
      * cbn [outgoing_msgs set_outgoing_msgs] in Hbytes.
        rewrite <- Hbytes1, <- Hbytes, sent_bytes_app, <- app_assoc.
        reflexivity.
      * rewrite write_attempts_app, length_app. cbn [length]. lia.
Qed.

(** ** Concrete runs *)

(** C3, counterexample.  The stream of two frames [0x10 0x01 0x00] and
    [0xC0 0x01 0x00]: delivered in one read, no frame reaches a handler and
    all six bytes stay buffered; delivered in two reads at the frame
    boundary, the first frame reaches [handle_connect]. *)
Lemma two_frames_depend_on_split :
  concat [[16; 1; 0; 192; 1; 0]] = concat [[16; 1; 0]; [192; 1; 0]]
  /\ feed false accept_connect 0 5 [[16; 1; 0; 192; 1; 0]]
       (mkWorld [mkClient 5 5 S_CONNECTING [] 0 []] 1 [])
     = Ret (mkWorld [mkClient 5 5 S_CONNECTING [16; 1; 0; 192; 1; 0] 6 []] 1
              [SysRead 5 4096])
  /\ feed false accept_connect 0 5 [[16; 1; 0]; [192; 1; 0]]
       (mkWorld [mkClient 5 5 S_CONNECTING [] 0 []] 1 [])
     = Ret (mkWorld [mkClient 5 5 S_CONNECTED [192; 1; 0] 3 []] 1
              [SysRead 5 4096; CallHandleConnect 5 1; SysRead 5 4096])
  /\ handler_calls [SysRead 5 4096]
     <> handler_calls [SysRead 5 4096; CallHandleConnect 5 1; SysRead 5 4096].
Proof.
  split; [reflexivity|]. split; [reflexivity|]. split; [reflexivity|].
  cbn. discriminate.
Qed.

(** C3, witness: the frame [0x10 0x03 7 8 9] read as 1 + 2 + 1 + 1 bytes. *)
Lemma receive_path_decodes_once_per_read_witness :
  (watcher_fd (mkClient 5 5 S_CONNECTING [] 0 []) = fd (mkClient 5 5 S_CONNECTING [] 0 [])
   /\ 1 <= nth 1 [16; 3; 7; 8; 9] 0 < 128
   /\ Z.of_nat (length [16; 3; 7; 8; 9]) = 2 + nth 1 [16; 3; 7; 8; 9] 0
   /\ [16] ++ concat [[3; 7]; [8]; [9]] = [16; 3; 7; 8; 9])
  /\ exists w1 w2,
      feed false accept_connect 0 5 [[16]; [3; 7]; [8]; [9]]
        (mkWorld [mkClient 5 5 S_CONNECTING [] 0 []] 1 []) = Ret w1
      /\ feed false accept_connect 0 5 [[16; 3; 7; 8; 9]]
           (mkWorld [mkClient 5 5 S_CONNECTING [] 0 []] 1 []) = Ret w2
      /\ clients w1 = clients w2
      /\ num_clients w1 = num_clients w2
      /\ handler_calls (trace w1) = handler_calls (trace w2)
      /\ (length (handler_calls (trace w2)) <= length (handler_calls []) + 1)%nat
      /\ (Z.land (char_to_int false (nth 0 [16; 3; 7; 8; 9] 0)) 240 = T_CONNECT ->
          handler_calls (trace w2)
          = handler_calls [] ++ [CallHandleConnect 5 (nth 1 [16; 3; 7; 8; 9] 0)]).
Proof.
  split.
  - repeat split; cbn; lia.
  - apply (proj2 receive_path_decodes_once_per_read false accept_connect 0 5
             (mkClient 5 5 S_CONNECTING [] 0 []) [] 1 [] [16; 3; 7; 8; 9]
             [16] [[3; 7]; [8]; [9]]).
    + reflexivity.
    + reflexivity.
    + cbn; lia.
    + reflexivity.
    + reflexivity.
    + discriminate.
    + repeat constructor; discriminate.
    + left; reflexivity.
Defined.

(** C4, counterexample.  With exactly the two bytes [0x10 0x00] buffered the
    frame is not recognised: the callback does not call the decoder (whose
    assertion would fail), no handler runs and the client stays in
    [S_CONNECTING]; a third byte does not make the frame complete either. *)
Lemma establish_frame_of_two_bytes_not_decoded :
  peer_cb false accept_connect (read_env [16; 0]) 0 5 EV_READ
    (mkWorld [mkClient 5 5 S_CONNECTING [] 0 []] 1 [])
  = Ret (mkWorld [mkClient 5 5 S_CONNECTING [16; 0] 2 []] 1 [SysRead 5 4096])
  /\ read_packet false accept_connect (mkClient 5 5 S_CONNECTING [16; 0] 2 [])
     = AssertFailed
  /\ feed false accept_connect 0 5 [[16; 0]; [16]]
       (mkWorld [mkClient 5 5 S_CONNECTING [] 0 []] 1 [])
     = Ret (mkWorld [mkClient 5 5 S_CONNECTING [16; 0; 16] 3 []] 1
              [SysRead 5 4096; SysRead 5 4094]).
Proof. repeat split; reflexivity. Qed.

(** C4, witness: the two bytes [0x10 0x00] arriving on an empty buffer. *)
Lemma header_only_frame_never_complete_witness :
  (sys_read (read_env [16; 0]) 5 = ReadData [16; 0]
   /\ Z.of_nat (length [16; 0]) <= BUF_LEN - 0
   /\ inbuf_bytes (received (mkClient 5 5 S_CONNECTING [] 0 []) [16; 0]) <= 2)
  /\ exists c2,
      peer_cb false accept_connect (read_env [16; 0]) 0 5 EV_READ
        (mkWorld [mkClient 5 5 S_CONNECTING [] 0 []] 1 [])
      = Ret (mkWorld [c2] 1 ([] ++ [SysRead 5 (BUF_LEN - 0)]))
      /\ (2 < inbuf_bytes (received (mkClient 5 5 S_CONNECTING [] 0 []) [16; 0]) ->
          c2 = received (mkClient 5 5 S_CONNECTING [] 0 []) [16; 0])
      /\ (inbuf_bytes (received (mkClient 5 5 S_CONNECTING [] 0 []) [16; 0]) <= 2 ->
          c2 = reset_if 0 (received (mkClient 5 5 S_CONNECTING [] 0 []) [16; 0])
          /\ read_packet false accept_connect
               (received (mkClient 5 5 S_CONNECTING [] 0 []) [16; 0])
             = AssertFailed).
Proof.
  split.
  - split; [reflexivity|]. split; vm_compute; discriminate.
  - apply (header_only_frame_never_complete false accept_connect
             (read_env [16; 0]) 0 5 (mkClient 5 5 S_CONNECTING [] 0 []) [] 1 []
             [16; 0]).
    + reflexivity.
    + reflexivity.
    + discriminate.
    + vm_compute; discriminate.
    + left. vm_compute; discriminate.
Defined.

(** C7, counterexample.  With two envelopes queued and a socket that takes
    everything it is offered, one write-readiness callback sends the first
    envelope and returns: the second is still queued and was not attempted,
    although nothing would have blocked and the queue is not empty. *)
Lemma one_envelope_per_callback :
  peer_cb false accept_connect (write_env 100) 0 5 EV_WRITE
    (mkWorld [mkClient 5 5 S_CONNECTED [] 0
                [mkEnvelope [1; 2; 3] 3 0; mkEnvelope [4; 5] 2 0]] 1 [])
  = Ret (mkWorld [mkClient 5 5 S_CONNECTED [] 0 [mkEnvelope [4; 5] 2 0]] 1
           [SysWrite 5 [1; 2; 3]; FreeEnvelope (mkEnvelope [1; 2; 3] 3 3)]).
Proof. reflexivity. Qed.

(** C7, witness: three envelopes enqueued in order, drained by five
    callbacks in which the socket takes 2, 0, 5, 1 and 7 bytes at most. *)
Lemma drain_sends_in_queue_order_witness :
  queue_ok (enqueue [6; 7] (enqueue [4; 5] (enqueue [1; 2; 3] [])))
  /\ exists q' evs,
      drain false accept_connect 5 [2; 0; 5; 1; 7]%nat
        (mkWorld [mkClient 5 5 S_CONNECTED [] 0
                    (enqueue [6; 7] (enqueue [4; 5] (enqueue [1; 2; 3] [])))] 1 [])
      = Ret (mkWorld
               [set_outgoing_msgs q'
                  (mkClient 5 5 S_CONNECTED [] 0
                     (enqueue [6; 7] (enqueue [4; 5] (enqueue [1; 2; 3] []))))]
               1 ([] ++ evs))
      /\ queue_ok q'
      /\ sent_bytes evs ++ pending q'
         = pending (enqueue [6; 7] (enqueue [4; 5] (enqueue [1; 2; 3] [])))
      /\ (length (write_attempts evs) <= length [2; 0; 5; 1; 7]%nat)%nat.
Proof.
  assert (Hq : queue_ok (enqueue [6; 7] (enqueue [4; 5] (enqueue [1; 2; 3] [])))).
  { cbv [enqueue app length].
    repeat (apply Forall_cons || apply Forall_nil);
      unfold envelope_ok; cbn [msg bytes_total bytes_sent length]; lia. }
  split; [exact Hq|].
  apply (drain_sends_in_queue_order false accept_connect 5 [2; 0; 5; 1; 7]%nat
           (mkClient 5 5 S_CONNECTED [] 0
              (enqueue [6; 7] (enqueue [4; 5] (enqueue [1; 2; 3] []))))
           [] 1 []).
  - reflexivity.
  - exact Hq.
Defined.

(** C10, witness: both readiness bits set ([revents = 3]). *)
Lemma read_readiness_shadows_write_witness :
  Z.land 3 EV_READ <> 0
  /\ peer_cb false accept_connect (read_env [16; 1; 0]) 0 5 3
       (mkWorld [mkClient 5 5 S_CONNECTING [] 0 [mkEnvelope [1; 2; 3] 3 0]] 1 [])
     = peer_cb false accept_connect (read_env [16; 1; 0]) 0 5 EV_READ
         (mkWorld [mkClient 5 5 S_CONNECTING [] 0 [mkEnvelope [1; 2; 3] 3 0]] 1 []).
Proof.
  assert (Hr : Z.land 3 EV_READ <> 0) by (cbn; lia).
  split; [exact Hr|].
  apply (proj1 (read_readiness_shadows_write false accept_connect
                  (read_env [16; 1; 0]) 0 5 3
                  (mkWorld [mkClient 5 5 S_CONNECTING [] 0
                              [mkEnvelope [1; 2; 3] 3 0]] 1 [])));
    exact Hr.
Defined.

(** ** What the decoder accepts *)

Lemma land_127_range (z : Z) : 0 <= Z.land z 127 <= 127.
Proof.
  assert (H : Z.land z 127 = z mod 128)
    by (change 127 with (Z.ones 7); now rewrite Z.land_ones by lia).
  rewrite H. pose proof (Z.mod_pos_bound z 128). lia.
Qed.

Lemma wrap_int_zero : wrap_int 0 = 0.
Proof. reflexivity. Qed.

(** A product of a seven-bit value with a power of 128 below [2^35] never
    wraps to a value between 1 and 127. *)
Lemma wrap_int_multiple v m :
  0 <= v <= 127 ->
  m = 128 \/ m = 16384 \/ m = 2097152 \/ m = 268435456 ->
  wrap_int (v * m) <= 0 \/ 128 <= wrap_int (v * m).
Proof.
  intros Hv Hm. unfold wrap_int.
  destruct Hm as [->|[->|[->| ->]]]; Z.div_mod_to_equations; lia.
Qed.

Lemma multiplier_at_next j m :
  multiplier_at j m -> multiplier_at (j + 1) (wrap_int (m * 128)).
Proof.
  unfold multiplier_at.
  intros [[-> ->]|[[-> ->]|[[-> ->]|[[-> ->]|[[-> ->]|[Hj ->]]]]]].
  - right; left. split; reflexivity.
  - right; right; left. split; reflexivity.
  - right; right; right; left. split; reflexivity.
  - right; right; right; right; left. split; reflexivity.
  - right; right; right; right; right. split; [lia | reflexivity].
  - right; right; right; right; right. split; [lia | reflexivity].
Qed.

(** Whatever the loop of [read_packet] returns, it is not the number of
    bytes buffered behind the two header bytes. *)
Lemma length_loop_never_matches cs client fuel :
  forall j m len idx,
    2 < inbuf_bytes client ->
    multiplier_at j m ->
    j < inbuf_bytes client ->
    length_loop cs fuel client j m = Ret (len, idx) ->
    len <> inbuf_bytes client - 2.
Proof.
  induction fuel as [|fuel IH]; intros j m len idx Hn Hm Hj; [discriminate|].
  cbn [length_loop].
  pose proof (land_127_range (inbuf_at cs client j)) as Hv.
  destruct ((j + 1 <? inbuf_bytes client)
            && negb (Z.land (inbuf_at cs client j) 127 =? 0)) eqn:E.
  - apply andb_prop in E. destruct E as [E _]. apply Z.ltb_lt in E.
    apply IH; [exact Hn | now apply multiplier_at_next | exact E].
  - intros H. injection H as <- _.
    apply andb_false_iff in E. destruct E as [E|E].
    + apply Z.ltb_ge in E.
      assert (Hlast : inbuf_bytes client - 2 = j - 1) by lia.
      rewrite Hlast.
      destruct Hm as [[-> ->]|[[-> ->]|[[-> ->]|[[-> ->]|[[-> ->]|[Hj6 ->]]]]]].
      * lia.
      * pose proof (wrap_int_multiple _ 128 Hv). lia.
      * pose proof (wrap_int_multiple _ 16384 Hv). lia.
      * pose proof (wrap_int_multiple _ 2097152 Hv). lia.
      * pose proof (wrap_int_multiple _ 268435456 Hv). lia.
      * rewrite Z.mul_0_r, wrap_int_zero. lia.
    + apply negb_false_iff, Z.eqb_eq in E.
      rewrite E, Z.mul_0_l, wrap_int_zero. lia.
Qed.

(** What [frame_length] computes, with more than two bytes buffered: the
    message is complete exactly when the second byte is below 128 and
    equals the number of bytes behind the header. *)
Lemma frame_length_complete_iff cs client :
  2 < inbuf_bytes client ->
  exists len,
    frame_length cs client
    = Ret (len, (inbuf_at cs client 1 <? 128)
                && (inbuf_bytes client - 2 =? inbuf_at cs client 1))
    /\ ((inbuf_at cs client 1 <? 128)
        && (inbuf_bytes client - 2 =? inbuf_at cs client 1) = true ->
        len = inbuf_bytes client - 2).
Proof.
  intros Hn. unfold frame_length.
  destruct ((inbuf_at cs client 1 <? 128)
            && (inbuf_bytes client - 2 =? inbuf_at cs client 1)) eqn:E.
  - eexists. split; [reflexivity|]. intros _.
    apply andb_prop in E. destruct E as [_ E]. apply Z.eqb_eq in E. lia.
  - destruct (inbuf_at cs client 1 >=? 128) eqn:G.
    + destruct (length_loop_returns cs client (Z.to_nat (inbuf_bytes client)) 1 1)
        as [[len idx] Hr]; [lia|].
      rewrite Hr. cbn [bind fst].
      assert (Hne : len <> inbuf_bytes client - 2).
      { apply (length_loop_never_matches cs client
                 (Z.to_nat (inbuf_bytes client)) 1 1 len idx);
          [exact Hn | left; split; reflexivity | lia | exact Hr]. }
      replace (inbuf_bytes client - 2 =? len) with false
        by (symmetry; apply Z.eqb_neq; lia).
      exists len. split; [reflexivity | discriminate].
    + eexists. split; [reflexivity | discriminate].
Qed.

(** X1.  With more than two bytes buffered, [read_packet] calls
    [handle_connect] exactly when the first byte has type CONNECT, the
    second byte is below 128, and exactly that many bytes follow the two
    header bytes; it passes that number as the length and returns the
    handler's result.  In every other case it returns 0, calls nothing and
    leaves the client as it is.  The connection state plays no part. *)
Theorem read_packet_dispatches_connect_only :
  forall cs h client,
    2 < inbuf_bytes client ->
    read_packet cs h client
    = if (inbuf_at cs client 1 <? 128)
         && (inbuf_bytes client - 2 =? inbuf_at cs client 1)
         && (Z.land (inbuf_at cs client 0) 240 =? T_CONNECT)
      then Ret (fst (h client (inbuf_bytes client - 2)),
                snd (h client (inbuf_bytes client - 2)),
                [CallHandleConnect (fd client) (inbuf_bytes client - 2)])
      else Ret (client, 0, []).
Proof.
  intros cs h client Hn. unfold read_packet.
  replace (inbuf_bytes client >? 2) with true by (symmetry; apply Z.gtb_lt; lia).
  cbn [assert bind].
  destruct (frame_length_complete_iff cs client Hn) as [len [Hfl Hlen]].
  rewrite Hfl. cbn [bind].
  destruct ((inbuf_at cs client 1 <? 128)
            && (inbuf_bytes client - 2 =? inbuf_at cs client 1)); cbn [negb andb].
  2:{ reflexivity. }
  rewrite (Hlen eq_refl).
  destruct (Z.land (inbuf_at cs client 0) 240 =? T_CONNECT) eqn:Ety;
    cbn [negb].
  - rewrite andb_false_r.
    destruct (h client (inbuf_bytes client - 2)). reflexivity.
  - rewrite andb_true_r.
    destruct (state_eqb (state client) S_CONNECTING); [reflexivity|].
    destruct (Z.land (inbuf_at cs client 0) 240 =? T_PINGREQ); reflexivity.
Qed.

(** X2.  A buffer whose second byte has the continuation bit set (128 to
    255) is never a complete message, however many bytes are buffered and
    whether [char] is signed or not: [read_packet] returns 0 and calls
    nothing, so no message with more than 127 bytes behind its header is
    ever handled. *)
Theorem continuation_byte_never_complete :
  forall cs h client,
    2 < inbuf_bytes client ->
    128 <= nth 1 (inbuf client) 0 <= 255 ->
    read_packet cs h client = Ret (client, 0, []).
Proof.
  intros cs h client Hn Hb. unfold read_packet.
  replace (inbuf_bytes client >? 2) with true by (symmetry; apply Z.gtb_lt; lia).
  cbn [assert bind].
  destruct (frame_length_complete_iff cs client Hn) as [len [Hfl _]].
  rewrite Hfl. cbn [bind].
  replace ((inbuf_at cs client 1 <? 128)
           && (inbuf_bytes client - 2 =? inbuf_at cs client 1)) with false;
    [reflexivity|].
  symmetry. apply andb_false_iff.
  unfold inbuf_at, char_to_int. change (Z.to_nat 1) with 1%nat.
  replace (128 <=? nth 1 (inbuf client) 0) with true
    by (symmetry; apply Z.leb_le; lia).
  destruct cs; cbn [andb].
  - right. apply Z.eqb_neq. lia.
  - left. apply Z.ltb_ge. lia.
Qed.

(** ** Accepting and closing connections *)

Lemma list_foreach_break_split p l before client after :
  list_foreach_break p l = Some (before, client, after) ->
  l = before ++ client :: after.
Proof.
  revert before. induction l as [|c l IH]; intros before; cbn; [discriminate|].
  destruct (p c).
  - intros H. injection H as <- <- <-. reflexivity.
  - destruct (list_foreach_break p l) as [[[b f] a]|]; [|discriminate].
    intros H. injection H as <- <- <-. cbn. f_equal. now apply IH.
Qed.

(** X3.  [accept_cb] registers nothing, starts no watcher and leaves the
    world as it is when the event carries the error bit, when [accept]
    fails, and also when [accept] succeeds with a descriptor whose number
    is that of EAGAIN, EWOULDBLOCK (11) or EINTR (4): such a connection is
    dropped without being closed. *)
Theorem accept_cb_registers_nothing :
  forall sys_accept buf watcher revents w,
    Z.land EV_ERROR revents <> 0
    \/ sys_accept watcher < 0
    \/ sys_accept watcher = 11
    \/ sys_accept watcher = 4 ->
    accept_cb sys_accept buf watcher revents w = (w, None).
Proof.
  intros sys_accept buf watcher revents w H. unfold accept_cb.
  destruct (Z.land EV_ERROR revents =? 0) eqn:E; cbn [negb]; [|reflexivity].
  apply Z.eqb_eq in E.
  destruct H as [H|[H|[H|H]]]; [contradiction | | |].
  - destruct ((sys_accept watcher =? EAGAIN) || (sys_accept watcher =? EINTR)
              || (sys_accept watcher =? EWOULDBLOCK)); [reflexivity|].
    replace (sys_accept watcher <? 0) with true
      by (symmetry; apply Z.ltb_lt; lia).
    reflexivity.
  - rewrite H. reflexivity.
  - rewrite H. reflexivity.
Qed.

(** X4.  [num_clients] stays the length of the client list: if it is before
    [accept_cb] or [peer_cb] runs, it is afterwards, whatever the kernel
    and the handler do. *)
Theorem num_clients_counts_clients :
  forall cs h env ret_uninit peer_w sys_accept buf watcher revents w,
    counted w ->
    counted (fst (accept_cb sys_accept buf watcher revents w))
    /\ (forall w', peer_cb cs h env ret_uninit peer_w revents w = Ret w' ->
                   counted w').
Proof.
  intros cs h env ret_uninit peer_w sys_accept buf watcher revents w Hc.
  unfold counted in *. split.
  - unfold accept_cb.
    destruct (negb (Z.land EV_ERROR revents =? 0)); [exact Hc|].
    destruct ((sys_accept watcher =? EAGAIN) || (sys_accept watcher =? EINTR)
              || (sys_accept watcher =? EWOULDBLOCK)); [exact Hc|].
    destruct (sys_accept watcher <? 0); [exact Hc|].
    cbn [fst clients num_clients length]. lia.
  - intros w'. unfold peer_cb.
    destruct (list_foreach_break _ (clients w)) as [[[before client] after]|] eqn:El;
      [|discriminate].
    apply list_foreach_break_split in El.
    assert (Hlen : Z.of_nat (length (clients w))
                   = Z.of_nat (length before) + 1 + Z.of_nat (length after)).
    { rewrite El, length_app. cbn [length]. lia. }
    destruct (watcher_fd client =? fd client); cbn [assert bind]; [|discriminate].
    destruct (negb (Z.land revents EV_READ =? 0)).
    + unfold peer_cb_read.
      destruct (do_read env (fd client) (BUF_LEN - inbuf_bytes client))
        as [[bytes_read got] errno].
      destruct (bytes_read =? 0) eqn:E0.
      * apply Z.eqb_eq in E0.
        replace (bytes_read =? -1) with false
          by (symmetry; apply Z.eqb_neq; lia).
        cbn [andb]. intros H. injection H as <-.
        cbn [clients num_clients]. rewrite length_app. lia.
      * destruct (bytes_read =? -1).
        { intros H. injection H as <-. exact Hc. }
        match goal with
        | |- bind ?m _ = _ -> _ => destruct m as [[[c2 ret] calls]| |]
        end; cbn [bind]; [|discriminate|discriminate].
        intros H. injection H as <-.
        cbn [clients num_clients]. rewrite length_app. cbn [length]. lia.
    + destruct (negb (Z.land revents EV_WRITE =? 0)).
      2:{ intros H. injection H as <-. exact Hc. }
      unfold peer_cb_write.
      destruct (outgoing_msgs client) as [|e q].
      { intros H. injection H as <-. exact Hc. }
      destruct (negb (bytes_total e =? bytes_sent e)); cbn [assert bind];
        [|discriminate].
      destruct (do_write env (fd client) _) as [ret ev].
      destruct ((ret <? 0)
                && ((ret =? EAGAIN) || (ret =? EWOULDBLOCK) || (ret =? EINTR))).
      { intros H. injection H as <-. exact Hc. }
      cbn [set_bytes_sent bytes_sent bytes_total].
      destruct (bytes_sent e + ret =? bytes_total e);
        intros H; injection H as <-;
        cbn [clients num_clients]; rewrite length_app; cbn [length]; lia.
Qed.




(** X8.  The write branch of [peer_cb] does nothing on an empty queue, and
    stops the process on the assertion when the envelope at the head has
    [bytes_sent] equal to [bytes_total], as an envelope with an empty
    payload has; with any other head it returns. *)
Theorem write_callback_asserts_unsent_head :
  forall cs h env ret_uninit peer_w c others num tr,
    watcher_fd c = fd c ->
    (outgoing_msgs c = [] ->
       peer_cb cs h env ret_uninit peer_w EV_WRITE (mkWorld (c :: others) num tr)
       = Ret (mkWorld (c :: others) num tr))
    /\ (forall e q, outgoing_msgs c = e :: q ->
          (bytes_total e = bytes_sent e ->
             peer_cb cs h env ret_uninit peer_w EV_WRITE
               (mkWorld (c :: others) num tr) = AssertFailed)
          /\ (bytes_total e <> bytes_sent e ->
                exists w',
                  peer_cb cs h env ret_uninit peer_w EV_WRITE
                    (mkWorld (c :: others) num tr) = Ret w')).
Proof.
  intros cs h env ret_uninit peer_w c others num tr Hw.
  rewrite peer_cb_head by exact Hw.
  change (negb (Z.land EV_WRITE EV_READ =? 0)) with false.
  change (negb (Z.land EV_WRITE EV_WRITE =? 0)) with true. cbv iota.
  unfold peer_cb_write. split.
  - intros ->. reflexivity.
  - intros e q ->. split.
    + intros ->. rewrite Z.eqb_refl. reflexivity.
    + intros Hne.
      replace (bytes_total e =? bytes_sent e) with false
        by (symmetry; apply Z.eqb_neq; lia).
      cbn [negb assert bind].
      destruct (do_write env (fd c) _) as [ret ev].
      destruct ((ret <? 0)
                && ((ret =? EAGAIN) || (ret =? EWOULDBLOCK) || (ret =? EINTR)));
        [eauto|].
      cbn [set_bytes_sent bytes_sent bytes_total].
      destruct (bytes_sent e + ret =? bytes_total e); eauto.
Qed.

(** ** Emptying the queue *)

(** A write-readiness callback in which the socket takes all that is left
    of the head envelope: the bytes go out and the envelope is freed. *)
Lemma peer_cb_write_all cs h peer_w n c others num tr e q :
  watcher_fd c = fd c ->
  outgoing_msgs c = e :: q ->
  envelope_ok e ->
  (length (unsent e) <= n)%nat ->
  peer_cb cs h (write_env n) 0 peer_w EV_WRITE (mkWorld (c :: others) num tr)
  = Ret (mkWorld (set_outgoing_msgs q c :: others) num
           (tr ++ [SysWrite (fd c) (unsent e);
                   FreeEnvelope (set_bytes_sent (bytes_total e) e)])).
Proof.
  intros Hw Hq Hok Hn.
  pose proof (unsent_length e Hok) as Hlen.
  destruct Hok as [Htot Hsent].
  rewrite peer_cb_head by exact Hw.
  change (negb (Z.land EV_WRITE EV_READ =? 0)) with false.
  change (negb (Z.land EV_WRITE EV_WRITE =? 0)) with true. cbv iota.
  unfold peer_cb_write. rewrite Hq.
  replace (bytes_total e =? bytes_sent e) with false
    by (symmetry; apply Z.eqb_neq; lia).
  cbn [negb assert bind].
  fold (unsent e). rewrite (firstn_all2 (unsent e)) by lia.
  unfold do_write, write_env. cbn [sys_write].
  rewrite (firstn_all2 (unsent e)) by exact Hn.
  replace (Z.of_nat (length (unsent e)) <? 0) with false
    by (symmetry; apply Z.ltb_ge; lia).
  cbn [andb set_bytes_sent bytes_sent bytes_total clients num_clients trace].
  replace (bytes_sent e + Z.of_nat (length (unsent e))) with (bytes_total e)
    by lia.
  rewrite Z.eqb_refl, <- app_assoc. reflexivity.
Qed.

(** X9.  On a sound queue of [k] envelopes, [k] write-readiness callbacks
    in each of which the socket takes whatever it is offered empty the
    queue: each callback sends one whole envelope, and the bytes that went
    out are the pending bytes of the queue, head first. *)
Theorem drain_empties_queue :
  forall cs h peer_w n q c others num tr,
    watcher_fd c = fd c ->
    outgoing_msgs c = q ->
    queue_ok q ->
    Forall (fun e => (length (unsent e) <= n)%nat) q ->
    exists evs,
      drain cs h peer_w (repeat n (length q)) (mkWorld (c :: others) num tr)
      = Ret (mkWorld (set_outgoing_msgs [] c :: others) num (tr ++ evs))
      /\ sent_bytes evs = pending q
      /\ length (write_attempts evs) = length q.
Proof.
  intros cs h peer_w n q.
  induction q as [|e q IH]; intros c others num tr Hw Hq Hok Hfit.
  - exists []. cbn [length repeat drain].
    replace (set_outgoing_msgs [] c) with c
      by (rewrite <- Hq; symmetry; apply set_outgoing_msgs_same).
    rewrite app_nil_r. repeat split.
  - inversion Hok as [|x l He Hrest]; subst x l.
    inversion Hfit as [|x l Hne Hfit']; subst x l.
    cbn [length repeat drain].
    rewrite (peer_cb_write_all cs h peer_w n c others num tr e q Hw Hq He Hne).
    cbn [bind].
    destruct (IH (set_outgoing_msgs q c) others num
                (tr ++ [SysWrite (fd c) (unsent e);
                        FreeEnvelope (set_bytes_sent (bytes_total e) e)])
                Hw eq_refl Hrest Hfit')
      as [evs [Hrun [Hbytes Hcount]]].
    exists ([SysWrite (fd c) (unsent e);
             FreeEnvelope (set_bytes_sent (bytes_total e) e)] ++ evs).
    split; [rewrite Hrun, app_assoc; reflexivity|]. split.
    + cbn [app sent_bytes pending map concat]. now rewrite Hbytes.
    + cbn [app write_attempts filter is_write_attempt length].
      fold (write_attempts evs). now rewrite Hcount.
Qed.

(** ** Bytes behind a frame *)

Lemma received_keeps_second_byte (c : Client) (d : list Z) :
  (2 <= length (inbuf c))%nat ->
  2 <= inbuf_bytes c ->
  nth 1 (inbuf (received c d)) 0 = nth 1 (inbuf c) 0
  /\ (2 <= length (inbuf (received c d)))%nat.
Proof.
  intros Hlen Hn. unfold received. cbn [inbuf set_inbuf set_inbuf_bytes].
  unfold store_bytes.
  assert (Hk : (2 <= length (firstn (Z.to_nat (inbuf_bytes c)) (inbuf c)))%nat)
    by (rewrite length_firstn; lia).
  split.
  - rewrite app_nth1 by lia. rewrite nth_firstn.
    replace (1 <? Z.to_nat (inbuf_bytes c))%nat with true; [reflexivity|].
    symmetry. apply Nat.ltb_lt. lia.
  - rewrite length_app. lia.
Qed.

(** X10.  Once more bytes are buffered than the message at the front of
    the buffer has (second byte [L] below 128, more than [L + 2] bytes
    buffered), the connection is stuck: every further read that fits the
    buffer only appends its bytes, and no handler is ever called. *)
Theorem bytes_behind_frame_block_connection :
  forall cs h ret_uninit peer_w chunks c others num tr,
    watcher_fd c = fd c ->
    (2 <= length (inbuf c))%nat ->
    0 <= nth 1 (inbuf c) 0 < 128 ->
    nth 1 (inbuf c) 0 + 2 < inbuf_bytes c ->
    Forall (fun d => d <> []) chunks ->
    inbuf_bytes c + Z.of_nat (length (concat chunks)) <= BUF_LEN ->
    exists c' evs,
      feed cs h ret_uninit peer_w chunks (mkWorld (c :: others) num tr)
      = Ret (mkWorld (c' :: others) num (tr ++ evs))
      /\ handler_calls evs = []
      /\ inbuf_bytes c' = inbuf_bytes c + Z.of_nat (length (concat chunks))
      /\ state c' = state c
      /\ outgoing_msgs c' = outgoing_msgs c.
Proof.
  intros cs h ret_uninit peer_w chunks.
  induction chunks as [|d chunks IH];
    intros c others num tr Hw Hlen Hb Hmore Hne Hfit.
  - exists c, []. cbn [feed concat length]. rewrite app_nil_r.
    repeat split. cbn. lia.
  - inversion Hne as [|x l Hd Hne']; subst x l.
    cbn [concat] in Hfit. rewrite length_app, Nat2Z.inj_add in Hfit.
    destruct (received_keeps_second_byte c d Hlen) as [Hsec Hlen1]; [lia|].
    cbn [feed].
    rewrite (peer_cb_read_data cs h (read_env d) ret_uninit peer_w
               c others num tr d);
      [ | exact Hw | reflexivity | exact Hd | lia ].
    assert (Hn1 : inbuf_bytes (received c d)
                  = inbuf_bytes c + Z.of_nat (length d))
      by apply inbuf_bytes_received.
    replace (inbuf_bytes (received c d) >? 2) with true
      by (symmetry; apply Z.gtb_lt; lia).
    rewrite read_packet_incomplete by (rewrite ?Hsec, ?Hn1; lia).
    cbn [bind]. unfold reset_if. cbn [Z.eqb negb].
    destruct (IH (received c d) others num
                ((tr ++ [SysRead (fd c) (BUF_LEN - inbuf_bytes c)]) ++ []))
      as [c' [evs [Hrun [Hcalls [Hbytes [Hst Hq]]]]]];
      [ exact Hw | exact Hlen1 | rewrite Hsec; exact Hb
      | rewrite Hsec, Hn1; lia | exact Hne' | rewrite Hn1; lia | ].
    exists c', (SysRead (fd c) (BUF_LEN - inbuf_bytes c) :: evs).
    split.
    { rewrite Hrun, app_nil_r, <- app_assoc. reflexivity. }
    split; [exact Hcalls|]. split.
    { rewrite Hbytes, Hn1. cbn [concat].
      rewrite length_app, Nat2Z.inj_add. lia. }
    split; [rewrite Hst; reflexivity | rewrite Hq; reflexivity].
Qed.

(** ** The buffer bound *)

(** The client [read_packet] returns is the one it got, or the one
    [handle_connect] made of it. *)
Lemma read_packet_client cs h client client' ret calls :
  read_packet cs h client = Ret (client', ret, calls) ->
  client' = client \/ exists len, client' = fst (h client len).
Proof.
  unfold read_packet.
  destruct (inbuf_bytes client >? 2); cbn [assert bind]; [|discriminate].
  destruct (frame_length cs client) as [[len complete]| |]; cbn [bind];
    [|discriminate|discriminate].
  destruct complete; cbn [negb].
  2:{ intros H; inversion H; auto. }
  destruct (state_eqb (state client) S_CONNECTING
            && negb (Z.land (inbuf_at cs client 0) 240 =? T_CONNECT)).
  { intros H; inversion H; auto. }
  destruct (Z.land (inbuf_at cs client 0) 240 =? T_CONNECT).
  - destruct (h client len) as [c2 r2] eqn:Eh. intros H; inversion H; subst.
    right. exists len. now rewrite Eh.
  - destruct (Z.land (inbuf_at cs client 0) 240 =? T_PINGREQ);
      intros H; inversion H; auto.
Qed.

(** What [read] can return when asked for [count] bytes. *)
Lemma do_read_bound env sd count bytes_read got errno :
  0 <= count ->
  do_read env sd count = (bytes_read, got, errno) ->
  bytes_read = -1 \/ 0 <= bytes_read <= count.
Proof.
  intros Hc. unfold do_read. destruct (sys_read env sd) as [data|e].
  - intros H. injection H as <- _ _. right.
    rewrite length_firstn. lia.
  - intros H. injection H as <- _ _. now left.
Qed.

(** X11.  No callback lets a client's count of buffered bytes leave the
    range from 0 to [BUF_LEN]: if every registered client is within it,
    and [handle_connect] keeps a client within it, then every client is
    within it after [accept_cb] and after [peer_cb]. *)
Theorem buffers_stay_bounded :
  forall cs h env ret_uninit peer_w sys_accept buf watcher revents w,
    (forall c len, 0 <= inbuf_bytes c <= BUF_LEN ->
                   0 <= inbuf_bytes (fst (h c len)) <= BUF_LEN) ->
    buffers_bounded w ->
    buffers_bounded (fst (accept_cb sys_accept buf watcher revents w))
    /\ (forall w', peer_cb cs h env ret_uninit peer_w revents w = Ret w' ->
                   buffers_bounded w').
Proof.
  intros cs h env ret_uninit peer_w sys_accept buf watcher revents w Hh Hb.
  unfold buffers_bounded in *. split.
  - unfold accept_cb.
    destruct (negb (Z.land EV_ERROR revents =? 0)); [exact Hb|].
    destruct ((sys_accept watcher =? EAGAIN) || (sys_accept watcher =? EINTR)
              || (sys_accept watcher =? EWOULDBLOCK)); [exact Hb|].
    destruct (sys_accept watcher <? 0); [exact Hb|].
    cbn [fst clients]. constructor; [|exact Hb].
    cbn [inbuf_bytes]. unfold BUF_LEN. lia.
  - intros w'. unfold peer_cb.
    destruct (list_foreach_break _ (clients w)) as [[[before client] after]|] eqn:El;
      [|discriminate].
    apply list_foreach_break_split in El. rewrite El in Hb.
    apply Forall_app in Hb. destruct Hb as [Hbefore Hrest].
    inversion Hrest as [|x l Hclient Hafter]; subst x l.
    assert (Hput : forall c', 0 <= inbuf_bytes c' <= BUF_LEN ->
                     Forall (fun c => 0 <= inbuf_bytes c <= BUF_LEN)
                       (before ++ c' :: after)).
    { intros c' Hc'. apply Forall_app. split; [exact Hbefore|].
      constructor; assumption. }
    destruct (watcher_fd client =? fd client); cbn [assert bind]; [|discriminate].
    destruct (negb (Z.land revents EV_READ =? 0)).
    + unfold peer_cb_read.
      destruct (do_read env (fd client) (BUF_LEN - inbuf_bytes client))
        as [[bytes_read got] errno] eqn:Er.
      apply do_read_bound in Er; [|lia].
      destruct (bytes_read =? 0).
      { destruct ((bytes_read =? -1) && (errno =? EAGAIN));
          intros H; injection H as <-; cbn [clients].
        - rewrite El. now apply Hput.
        - apply Forall_app. now split. }
      destruct (bytes_read =? -1) eqn:E1.
      { intros H. injection H as <-. cbn [clients]. rewrite El. now apply Hput. }
      apply Z.eqb_neq in E1.
      set (c1 := set_inbuf_bytes _ _).
      assert (Hc1 : 0 <= inbuf_bytes c1 <= BUF_LEN).
      { subst c1. cbn [inbuf_bytes set_inbuf_bytes]. lia. }
      assert (Hreset : forall ret c2, 0 <= inbuf_bytes c2 <= BUF_LEN ->
                0 <= inbuf_bytes
                       (if negb (ret =? 0) then set_inbuf_bytes 0 c2 else c2)
                  <= BUF_LEN).
      { intros ret c2 Hc2. destruct (negb (ret =? 0)); [|exact Hc2].
        cbn [inbuf_bytes set_inbuf_bytes]. unfold BUF_LEN. lia. }
      destruct (inbuf_bytes c1 >? 2) eqn:E2.
      * destruct (read_packet cs h c1) as [[[c2 ret] calls]| |] eqn:Hrp;
          cbn [bind]; [|discriminate|discriminate].
        intros H; injection H as <-; cbn [clients].
        apply Hput, Hreset.
        destruct (read_packet_client cs h c1 c2 ret calls Hrp) as [->|[len ->]];
          [exact Hc1 | now apply Hh].
      * cbn [bind]. intros H; injection H as <-; cbn [clients].
        apply Hput, Hreset, Hc1.
    + destruct (negb (Z.land revents EV_WRITE =? 0)).
      2:{ intros H. injection H as <-. rewrite El. now apply Hput. }
      unfold peer_cb_write.
      destruct (outgoing_msgs client) as [|e q].
      { intros H. injection H as <-. rewrite El. now apply Hput. }
      destruct (negb (bytes_total e =? bytes_sent e)); cbn [assert bind];
        [|discriminate].
      destruct (do_write env (fd client) _) as [ret ev].
      destruct ((ret <? 0)
                && ((ret =? EAGAIN) || (ret =? EWOULDBLOCK) || (ret =? EINTR))).
      { intros H. injection H as <-. cbn [clients]. rewrite El. now apply Hput. }
      cbn [set_bytes_sent bytes_sent bytes_total].
      destruct (bytes_sent e + ret =? bytes_total e);
        intros H; injection H as <-; cbn [clients]; now apply Hput.
Qed.

(** ** Failed calls and the clients further down the list *)

(** X12.  A write that fails, with whatever errno, on a sound head envelope
    still counts: [bytes_sent] of the head is lowered by one, the envelope
    stays at the head, and the queue behind it is left alone. *)
Theorem failed_write_counts_minus_one :
  forall cs h env ret_uninit peer_w c others num tr e q errno,
    watcher_fd c = fd c ->
    outgoing_msgs c = e :: q ->
    envelope_ok e ->
    sys_write env (fd c) = WriteError errno ->
    peer_cb cs h env ret_uninit peer_w EV_WRITE (mkWorld (c :: others) num tr)
    = Ret (mkWorld
             (set_outgoing_msgs (set_bytes_sent (bytes_sent e - 1) e :: q) c
                :: others)
             num (tr ++ [SysWriteFailed (fd c)])).
Proof.
  intros cs h env ret_uninit peer_w c others num tr e q errno Hw Hq [Htot Hs] Hr.
  rewrite peer_cb_head by exact Hw.
  change (negb (Z.land EV_WRITE EV_READ =? 0)) with false.
  change (negb (Z.land EV_WRITE EV_WRITE =? 0)) with true. cbv iota.
  unfold peer_cb_write. rewrite Hq.
  replace (bytes_total e =? bytes_sent e) with false
    by (symmetry; apply Z.eqb_neq; lia).
  cbn [negb assert bind]. unfold do_write. rewrite Hr.
  cbn [Z.ltb Z.compare Z.eqb andb orb set_bytes_sent bytes_sent bytes_total
       clients num_clients trace app].
  change (-1 =? EAGAIN) with false. change (-1 =? EWOULDBLOCK) with false.
  change (-1 =? EINTR) with false. cbn [orb andb].
  replace (bytes_sent e + -1 =? bytes_total e) with false
    by (symmetry; apply Z.eqb_neq; lia).
  reflexivity.
Qed.

(** X13.  A read that fails, with whatever errno, changes nothing: the
    client list, the buffers and the counter are as before, and no handler
    is called. *)
Theorem failed_read_changes_nothing :
  forall cs h env ret_uninit peer_w c others num tr errno,
    watcher_fd c = fd c ->
    sys_read env (fd c) = ReadError errno ->
    peer_cb cs h env ret_uninit peer_w EV_READ (mkWorld (c :: others) num tr)
    = Ret (mkWorld (c :: others) num
             (tr ++ [SysRead (fd c) (BUF_LEN - inbuf_bytes c)])).
Proof.
  intros cs h env ret_uninit peer_w c others num tr errno Hw Hr.
  rewrite peer_cb_head by exact Hw.
  change (negb (Z.land EV_READ EV_READ =? 0)) with true. cbv iota.
  unfold peer_cb_read, do_read. rewrite Hr. reflexivity.
Qed.

(** Every event of a list built from the calls of [peer_cb] is on the
    descriptor at hand, or is the release of an envelope. *)
Ltac on_descriptor :=
  repeat (apply Forall_cons;
          [first [right; reflexivity | left; reflexivity | right; assumption]|]);
  try apply Forall_nil.

(** X14.  Whatever watcher an event is for and whatever the kernel does,
    [peer_cb] touches only the client at the head of the list, the one
    accepted last: every system call and handler call it makes is on that
    client's descriptor, and the clients behind it are left exactly as
    they were, neither read, written nor removed. *)
Theorem only_head_client_is_served :
  forall cs h env ret_uninit peer_w revents c others num tr w',
    watcher_fd c = fd c ->
    peer_cb cs h env ret_uninit peer_w revents (mkWorld (c :: others) num tr)
    = Ret w' ->
    exists evs,
      trace w' = tr ++ evs
      /\ Forall (fun e => event_sd e = None \/ event_sd e = Some (fd c)) evs
      /\ (clients w' = others \/ exists c', clients w' = c' :: others).
Proof.
  intros cs h env ret_uninit peer_w revents c others num tr w' Hw.
  rewrite peer_cb_head by exact Hw.
  destruct (negb (Z.land revents EV_READ =? 0)).
  - unfold peer_cb_read.
    destruct (do_read env (fd c) (BUF_LEN - inbuf_bytes c))
      as [[bytes_read got] errno].
    cbn [clients num_clients trace app].
    destruct (bytes_read =? 0).
    { destruct ((bytes_read =? -1) && (errno =? EAGAIN));
        intros H; injection H as <-; cbn [clients trace].
      - exists [SysRead (fd c) (BUF_LEN - inbuf_bytes c)].
        split; [reflexivity|]. split; [|right; eauto].
        on_descriptor.
      - exists [SysRead (fd c) (BUF_LEN - inbuf_bytes c);
                SysClose (fd c); WatcherStop (fd c)].
        split; [now rewrite <- app_assoc|]. split; [|now left].
        on_descriptor. }
    destruct (bytes_read =? -1).
    { intros H; injection H as <-; cbn [clients trace].
      exists [SysRead (fd c) (BUF_LEN - inbuf_bytes c)].
      split; [reflexivity|]. split; [|right; eauto].
      on_descriptor. }
    set (c1 := set_inbuf_bytes _ _).
    match goal with
    | |- bind ?m _ = _ -> _ => destruct m as [[[c2 ret] calls]| |] eqn:Hm
    end; cbn [bind]; [|discriminate|discriminate].
    intros H; injection H as <-; cbn [clients trace].
    exists (SysRead (fd c) (BUF_LEN - inbuf_bytes c) :: calls).
    split; [now rewrite <- app_assoc|]. split; [|right; eauto].
    destruct (inbuf_bytes c1 >? 2).
    + apply read_packet_calls in Hm. destruct Hm as [->|[len ->]];
        on_descriptor.
    + injection Hm as _ _ <-. on_descriptor.
  - destruct (negb (Z.land revents EV_WRITE =? 0)).
    2:{ intros H; injection H as <-; cbn [clients trace].
        exists []. rewrite app_nil_r. split; [reflexivity|].
        split; [constructor | right; eauto]. }
    unfold peer_cb_write.
    destruct (outgoing_msgs c) as [|e q].
    { intros H; injection H as <-; cbn [clients trace].
      exists []. rewrite app_nil_r. split; [reflexivity|].
      split; [constructor | right; eauto]. }
    destruct (negb (bytes_total e =? bytes_sent e)); cbn [assert bind];
      [|discriminate].
    assert (Hev : forall offered,
              event_sd (snd (do_write env (fd c) offered)) = Some (fd c)).
    { intros offered. unfold do_write.
      destruct (sys_write env (fd c)); reflexivity. }
    match goal with
    | |- context [do_write env (fd c) ?o] =>
        specialize (Hev o); destruct (do_write env (fd c) o) as [ret ev]
    end.
    cbn [snd] in Hev. cbn [clients num_clients trace app].
    destruct ((ret <? 0)
              && ((ret =? EAGAIN) || (ret =? EWOULDBLOCK) || (ret =? EINTR))).
    { intros H; injection H as <-; cbn [clients trace].
      exists [ev]. split; [reflexivity|]. split; [|right; eauto].
      on_descriptor. }
    cbn [set_bytes_sent bytes_sent bytes_total].
    destruct (bytes_sent e + ret =? bytes_total e);
      intros H; injection H as <-; cbn [clients trace].
    + eexists [ev; _]. split; [now rewrite <- app_assoc|].
      split; [|right; eauto].
      on_descriptor.
    + exists [ev]. split; [reflexivity|]. split; [|right; eauto].
      on_descriptor.
Qed.

(** ** Concrete runs of the further properties *)

(** X1, witness: a CONNECT frame with two payload bytes. *)
Lemma read_packet_dispatches_connect_only_witness :
  2 < inbuf_bytes (mkClient 5 5 S_CONNECTING [16; 2; 7; 8] 4 [])
  /\ read_packet false accept_connect (mkClient 5 5 S_CONNECTING [16; 2; 7; 8] 4 [])
     = Ret (mkClient 5 5 S_CONNECTED [16; 2; 7; 8] 4 [], 1,
            [CallHandleConnect 5 2]).
Proof.
  assert (Hn : 2 < inbuf_bytes (mkClient 5 5 S_CONNECTING [16; 2; 7; 8] 4 []))
    by (cbn; lia).
  split; [exact Hn|].
  exact (read_packet_dispatches_connect_only false accept_connect
           (mkClient 5 5 S_CONNECTING [16; 2; 7; 8] 4 []) Hn).
Defined.

(** X2, witness: the length bytes 0xC8 0x01 followed by two bytes. *)
Lemma continuation_byte_never_complete_witness :
  (2 < 5 /\ 128 <= 200 <= 255)
  /\ read_packet true accept_connect
       (mkClient 5 5 S_CONNECTING [16; 200; 1; 7; 8] 5 [])
     = Ret (mkClient 5 5 S_CONNECTING [16; 200; 1; 7; 8] 5 [], 0, []).
Proof.
  split; [lia|].
  apply (continuation_byte_never_complete true accept_connect
           (mkClient 5 5 S_CONNECTING [16; 200; 1; 7; 8] 5 []));
    cbn; lia.
Defined.

(** X3, witness: [accept] returns descriptor 11. *)
Lemma accept_cb_registers_nothing_witness :
  accept_cb (fun _ => 11) [] 3 EV_READ (mkWorld [] 0 [])
  = (mkWorld [] 0 [], None).
Proof.
  apply (accept_cb_registers_nothing (fun _ => 11) [] 3 EV_READ
           (mkWorld [] 0 [])).
  right; right; left. reflexivity.
Defined.

(** X4, witness: one registered client. *)
Lemma num_clients_counts_clients_witness :
  counted (mkWorld [mkClient 5 5 S_CONNECTING [] 0 []] 1 [])
  /\ counted (fst (accept_cb (fun _ => 7) [] 3 EV_READ
                     (mkWorld [mkClient 5 5 S_CONNECTING [] 0 []] 1 []))).
Proof.
  assert (Hc : counted (mkWorld [mkClient 5 5 S_CONNECTING [] 0 []] 1 []))
    by reflexivity.
  split; [exact Hc|].
  exact (proj1 (num_clients_counts_clients false accept_connect (read_env [])
                  0 5 (fun _ => 7) [] 3 EV_READ
                  (mkWorld [mkClient 5 5 S_CONNECTING [] 0 []] 1 []) Hc)).
Defined.




(** X8, witness: an envelope with an empty payload at the head. *)
Lemma write_callback_asserts_unsent_head_witness :
  peer_cb false accept_connect (write_env 10) 0 5 EV_WRITE
    (mkWorld [mkClient 5 5 S_CONNECTED [] 0 [mkEnvelope [] 0 0]] 1 [])
  = AssertFailed.
Proof.
  apply (proj2 (write_callback_asserts_unsent_head false accept_connect
                  (write_env 10) 0 5
                  (mkClient 5 5 S_CONNECTED [] 0 [mkEnvelope [] 0 0]) [] 1 []
                  eq_refl)
           (mkEnvelope [] 0 0) [] eq_refl).
  reflexivity.
Defined.

(** X9, witness: two envelopes, one of them partly sent. *)
Lemma drain_empties_queue_witness :
  exists evs,
    drain false accept_connect 5 (repeat 10%nat 2)
      (mkWorld [mkClient 5 5 S_CONNECTED [] 0
                  [mkEnvelope [1; 2; 3] 3 1; mkEnvelope [4; 5] 2 0]] 1 [])
    = Ret (mkWorld [mkClient 5 5 S_CONNECTED [] 0 []] 1 ([] ++ evs))
    /\ sent_bytes evs = [2; 3; 4; 5]
    /\ length (write_attempts evs) = 2%nat.
Proof.
  apply (drain_empties_queue false accept_connect 5 10%nat
           [mkEnvelope [1; 2; 3] 3 1; mkEnvelope [4; 5] 2 0]
           (mkClient 5 5 S_CONNECTED [] 0
              [mkEnvelope [1; 2; 3] 3 1; mkEnvelope [4; 5] 2 0]) [] 1 []).
  - reflexivity.
  - reflexivity.
  - repeat (apply Forall_cons || apply Forall_nil);
      unfold envelope_ok; cbn [msg bytes_total bytes_sent length]; lia.
  - repeat (apply Forall_cons || apply Forall_nil); vm_compute; lia.
Defined.

(** X10, witness: a one-byte CONNECT message with a byte behind it, and two
    more reads. *)
Lemma bytes_behind_frame_block_connection_witness :
  exists c' evs,
    feed false accept_connect 0 5 [[1]; [2; 3]]
      (mkWorld [mkClient 5 5 S_CONNECTING [16; 1; 0; 9] 4 []] 1 [])
    = Ret (mkWorld [c'] 1 ([] ++ evs))
    /\ handler_calls evs = []
    /\ inbuf_bytes c' = 4 + Z.of_nat (length (concat [[1]; [2; 3]]))
    /\ state c' = S_CONNECTING
    /\ outgoing_msgs c' = [].
Proof.
  apply (bytes_behind_frame_block_connection false accept_connect 0 5
           [[1]; [2; 3]] (mkClient 5 5 S_CONNECTING [16; 1; 0; 9] 4 []) [] 1 []).
  - reflexivity.
  - cbn; lia.
  - cbn; lia.
  - cbn; lia.
  - repeat constructor; discriminate.
  - vm_compute; discriminate.
Defined.

(** X11, witness: the accepting handler leaves the byte count alone. *)
Lemma buffers_stay_bounded_witness :
  buffers_bounded (mkWorld [mkClient 5 5 S_CONNECTING [] 0 []] 1 [])
  /\ buffers_bounded
       (fst (accept_cb (fun _ => 7) [] 3 EV_READ
               (mkWorld [mkClient 5 5 S_CONNECTING [] 0 []] 1 []))).
Proof.
  assert (Hb : buffers_bounded (mkWorld [mkClient 5 5 S_CONNECTING [] 0 []] 1 [])).
  { repeat constructor; vm_compute; discriminate. }
  split; [exact Hb|].
  exact (proj1 (buffers_stay_bounded false accept_connect (read_env []) 0 5
                  (fun _ => 7) [] 3 EV_READ
                  (mkWorld [mkClient 5 5 S_CONNECTING [] 0 []] 1 [])
                  (fun c len H => H) Hb)).
Defined.

(** X12, witness: a fresh envelope and a write that would block. *)
Lemma failed_write_counts_minus_one_witness :
  envelope_ok (mkEnvelope [1; 2; 3] 3 2)
  /\ peer_cb false accept_connect
       (mkEnv (fun _ => ReadError EAGAIN) (fun _ => WriteError EAGAIN) 0)
       0 5 EV_WRITE
       (mkWorld [mkClient 5 5 S_CONNECTED [] 0 [mkEnvelope [1; 2; 3] 3 2]] 1 [])
     = Ret (mkWorld
              [mkClient 5 5 S_CONNECTED [] 0 [mkEnvelope [1; 2; 3] 3 1]] 1
              ([] ++ [SysWriteFailed 5])).
Proof.
  assert (He : envelope_ok (mkEnvelope [1; 2; 3] 3 2))
    by (unfold envelope_ok; cbn [msg bytes_total bytes_sent length]; lia).
  split; [exact He|].
  exact (failed_write_counts_minus_one false accept_connect
           (mkEnv (fun _ => ReadError EAGAIN) (fun _ => WriteError EAGAIN) 0)
           0 5 (mkClient 5 5 S_CONNECTED [] 0 [mkEnvelope [1; 2; 3] 3 2]) [] 1 []
           (mkEnvelope [1; 2; 3] 3 2) [] EAGAIN eq_refl eq_refl He eq_refl).
Defined.

(** X13, witness: a read that fails with errno 104. *)
Lemma failed_read_changes_nothing_witness :
  peer_cb false accept_connect
    (mkEnv (fun _ => ReadError 104) (fun _ => WriteError EAGAIN) 0)
    0 5 EV_READ (mkWorld [mkClient 5 5 S_CONNECTED [16; 1] 2 []] 1 [])
  = Ret (mkWorld [mkClient 5 5 S_CONNECTED [16; 1] 2 []] 1
           ([] ++ [SysRead 5 (BUF_LEN - 2)])).
Proof.
  exact (failed_read_changes_nothing false accept_connect
           (mkEnv (fun _ => ReadError 104) (fun _ => WriteError EAGAIN) 0)
           0 5 (mkClient 5 5 S_CONNECTED [16; 1] 2 []) [] 1 [] 104
           eq_refl eq_refl).
Defined.

(** X14, witness: an event for the watcher of descriptor 4 with clients 5
    and 4 registered. *)
Lemma only_head_client_is_served_witness :
  exists evs,
    [SysRead 5 4096] = [] ++ evs
    /\ Forall (fun e => event_sd e = None \/ event_sd e = Some 5) evs
    /\ ([mkClient 5 5 S_CONNECTING [9; 9] 2 []; mkClient 4 4 S_CONNECTING [] 0 []]
        = [mkClient 4 4 S_CONNECTING [] 0 []]
        \/ exists c',
            [mkClient 5 5 S_CONNECTING [9; 9] 2 []; mkClient 4 4 S_CONNECTING [] 0 []]
            = [c'; mkClient 4 4 S_CONNECTING [] 0 []]).
Proof.
  exact (only_head_client_is_served false accept_connect (read_env [9; 9]) 0 4
           EV_READ (mkClient 5 5 S_CONNECTING [] 0 [])
           [mkClient 4 4 S_CONNECTING [] 0 []] 2 []
           (mkWorld [mkClient 5 5 S_CONNECTING [9; 9] 2 [];
                     mkClient 4 4 S_CONNECTING [] 0 []] 2 [SysRead 5 4096])
           eq_refl eq_refl).
Defined.
